(** * DSPy_workflow/argumentative_extractor.py

    A shallow embedding of the script [argumentative_extractor.py] and the
    properties of its metric function, its [forward] method, its loader of
    training data and its command line.

    Conventions of the embedding.
    - A Python [str] is a [string]; its characters are the code points
      0..255, which is enough for every literal of the script.
    - A Python exception is a value of [exn]; code that may raise returns a
      [result].  There is no [try] in the script, so the only operation on
      a raised exception is to pass it on ([bind]).
    - The language model, the prompt optimizer and the file system are not
      part of the script: they are variables of the sections below.
    - Console output ([print]) is not part of the state: no property
      stated here depends on it. *)

From Stdlib Require Import String Ascii List Bool Arith Lia ZArith.
From Stdlib Require Import Permutation.
Import ListNotations.

Local Open Scope string_scope.
Local Open Scope list_scope.

(** ** Exceptions and results *)

Module Py.

Inductive exn : Type :=
| KeyError (key : string)
| TypeError
| AttributeError (attr : string)
| IndexError
| ValueError
| SystemExit (code : Z)
| Foreign (cls msg : string).   (* raised by code outside the script *)

Inductive result (A : Type) : Type :=
| Ok (a : A)
| Raise (e : exn).

Arguments Ok {A} a.
Arguments Raise {A} e.

Definition bind {A B : Type} (r : result A) (k : A -> result B) : result B :=
  match r with
  | Ok a => k a
  | Raise e => Raise e
  end.

Definition is_ok {A : Type} (r : result A) : bool :=
  match r with Ok _ => true | Raise _ => false end.

(** ** Strings *)

(** [s.startswith(p)]. *)
Fixpoint startswith (p s : string) : bool :=
  match p, s with
  | EmptyString, _ => true
  | String _ _, EmptyString => false
  | String a p', String b s' => Ascii.eqb a b && startswith p' s'
  end.

(** [sub in s] for strings. *)
Fixpoint contains (sub s : string) : bool :=
  startswith sub s ||
  match s with
  | EmptyString => false
  | String _ s' => contains sub s'
  end.

(** [s.split(sep)] for a separator that is not empty (Python raises
    [ValueError] on the empty one; the script only passes the literals
    [","], [":"] and [", "]).  The scan goes left to right; [skip] counts the
    characters of a separator occurrence still to be passed over.  The head
    of the result is the piece that the characters read so far belong to. *)
Fixpoint split_from (sep : string) (skip : nat) (s : string) : list string :=
  match s with
  | EmptyString => [EmptyString]
  | String c s' =>
      match skip with
      | S k => split_from sep k s'
      | O =>
          if startswith sep s
          then EmptyString :: split_from sep (String.length sep - 1) s'
          else match split_from sep 0 s' with
               | h :: t => String c h :: t
               | [] => [String c EmptyString]
               end
      end
  end.

Definition split (sep s : string) : list string := split_from sep 0 s.

(** [sep.join(parts)]. *)
Definition join (sep : string) (parts : list string) : string :=
  String.concat sep parts.

(** [s.replace(old, new)] for a non-empty [old]: the pieces between the
    occurrences of [old], glued with [new]. *)
Definition replace (old new s : string) : string := join new (split old s).

(** [c.isspace()] on the code points 0..255. *)
Definition isspace (c : ascii) : bool :=
  let n := nat_of_ascii c in
  (Nat.leb 9 n && Nat.leb n 13) || (Nat.leb 28 n && Nat.leb n 32)
  || Nat.eqb n 133 || Nat.eqb n 160.

Fixpoint lstrip (s : string) : string :=
  match s with
  | EmptyString => EmptyString
  | String c s' => if isspace c then lstrip s' else s
  end.

Fixpoint rstrip (s : string) : string :=
  match s with
  | EmptyString => EmptyString
  | String c s' =>
      match rstrip s' with
      | EmptyString => if isspace c then EmptyString else String c EmptyString
      | r => String c r
      end
  end.

(** [s.strip()]. *)
Definition strip (s : string) : string := rstrip (lstrip s).

(** [c.lower()] on the code points 0..255: the letters A-Z, and the
    Latin-1 capitals 192..222 apart from the multiplication sign 215. *)
Definition lower_char (c : ascii) : ascii :=
  let n := nat_of_ascii c in
  if (Nat.leb 65 n && Nat.leb n 90)
     || (Nat.leb 192 n && Nat.leb n 222 && negb (Nat.eqb n 215))
  then ascii_of_nat (n + 32) else c.

(** [s.lower()]. *)
Fixpoint lower (s : string) : string :=
  match s with
  | EmptyString => EmptyString
  | String c s' => String (lower_char c) (lower s')
  end.

(** [l[-1]]. *)
Fixpoint index_last {A : Type} (l : list A) : result A :=
  match l with
  | [] => Raise IndexError
  | [x] => Ok x
  | _ :: t => index_last t
  end.

(** [sorted(l)] for a list of strings: the order is the one of the code
    points, and equal strings cannot be told apart, so any sort gives the
    list Python gives. *)
Fixpoint insert_sorted (x : string) (l : list string) : list string :=
  match l with
  | [] => [x]
  | y :: t => if String.leb x y then x :: l else y :: insert_sorted x t
  end.

Fixpoint sorted (l : list string) : list string :=
  match l with
  | [] => []
  | x :: t => insert_sorted x (sorted t)
  end.

(** [x in l] for a list of strings. *)
Definition list_contains (x : string) (l : list string) : bool :=
  existsb (String.eqb x) l.

End Py.

Import Py.

Declare Scope py_scope.
Delimit Scope py_scope with py.
Notation "x <- e ;; k" := (Py.bind e (fun x => k))
  (at level 61, e at next level, right associativity) : py_scope.

(** ** Values read from JSON *)

(** What [json.load] returns.  A JSON object becomes a [dict], kept here as
    the list of its items in insertion order.  Numbers are integers: a number
    with a fraction is never inspected by the script and is left out. *)
#[warnings="-register-all"] Inductive pyval : Type :=
| PNone
| PBool (b : bool)
| PInt (n : Z)
| PStr (s : string)
| PList (items : list pyval)
| PDict (items : list (string * pyval)).

Definition dict : Type := list (string * pyval).

Fixpoint dict_get (k : string) (d : dict) : option pyval :=
  match d with
  | [] => None
  | (k', v) :: d' => if String.eqb k k' then Some v else dict_get k d'
  end.

Definition dict_has (k : string) (d : dict) : bool :=
  match dict_get k d with Some _ => true | None => false end.

(** The characters of a string, each as a string of length one. *)
Fixpoint chars (s : string) : list pyval :=
  match s with
  | EmptyString => []
  | String c s' => PStr (String c EmptyString) :: chars s'
  end.

(** [iter(v)], run to the end: a list gives its items, a dict its keys, a
    string its characters; nothing else is iterable. *)
Definition py_iter (v : pyval) : result (list pyval) :=
  match v with
  | PList l => Ok l
  | PDict d => Ok (map (fun kv => PStr (fst kv)) d)
  | PStr s => Ok (chars s)
  | PNone | PBool _ | PInt _ => Raise TypeError
  end.

(** [v[key]] for a string key: only a dict can be subscripted by a string. *)
Definition py_getitem (v : pyval) (key : string) : result pyval :=
  match v with
  | PDict d =>
      match dict_get key d with
      | Some x => Ok x
      | None => Raise (KeyError key)
      end
  | _ => Raise TypeError
  end.

(** [bool(v)]. *)
Definition truthy (v : pyval) : bool :=
  match v with
  | PNone => false
  | PBool b => b
  | PInt n => negb (Z.eqb n 0)
  | PStr s => negb (String.eqb s EmptyString)
  | PList l => match l with [] => false | _ => true end
  | PDict d => match d with [] => false | _ => true end
  end.

(** The builtin [all], called with the positional arguments [args]: it takes
    exactly one argument, an iterable. *)
Definition builtin_all (args : list pyval) : result bool :=
  match args with
  | [iterable] =>
      (items <- py_iter iterable ;;
       Ok (forallb truthy items))%py
  | _ => Raise TypeError
  end.

(** [v == s] for a string [s]: only an equal string is equal to it. *)
Definition py_eq_str (v : pyval) (s : string) : bool :=
  match v with
  | PStr s' => String.eqb s' s
  | _ => false
  end.

(** [d[k] = v]: the value of an old key is replaced where it stands, a new
    key is added at the end. *)
Fixpoint dict_set (d : dict) (k : string) (v : pyval) : dict :=
  match d with
  | [] => [(k, v)]
  | (k', v') :: d' =>
      if String.eqb k k' then (k', v) :: d' else (k', v') :: dict_set d' k v
  end.

(** [d.update(kw)]. *)
Definition dict_update (d kw : dict) : dict :=
  fold_left (fun acc kv => dict_set acc (fst kv) (snd kv)) kw d.

(** [d] without the key [k]. *)
Fixpoint dict_remove (k : string) (d : dict) : dict :=
  match d with
  | [] => []
  | (k', v) :: d' =>
      if String.eqb k k' then dict_remove k d' else (k', v) :: dict_remove k d'
  end.

(** [v.split(sep)]: only a string has the method. *)
Definition py_split (v : pyval) (sep : string) : result (list string) :=
  match v with
  | PStr s => Ok (split sep s)
  | _ => Raise (AttributeError "split")
  end.

(** ** The framework's records *)

Module Dspy.

(** [dspy.Example]: a store of named fields. *)
Record Example : Type := mkExample { store : dict }.

(** [dspy.Example] called with the items of [sample] as keyword arguments.
    The constructor is [__init__(self, base=None, ...)] followed by the
    keyword arguments: the unpacked argument must be a mapping; a key [self]
    is a second value for the receiver and raises [TypeError]; a key [base] is
    the parameter [base], whose items start the store when it is a dict that
    is not empty and which is ignored otherwise; the other keys update the
    store and so become fields. *)
Definition Example_of (sample : pyval) : result Example :=
  match sample with
  | PDict kwargs =>
      if dict_has "self" kwargs then Raise TypeError
      else
        let fields := dict_remove "base" kwargs in
        match dict_get "base" kwargs with
        | Some (PDict (item :: items)) =>
            Ok (mkExample (dict_update (item :: items) fields))
        | _ => Ok (mkExample fields)
        end
  | _ => Raise TypeError
  end.

(** [key in example]. *)
Definition Example_contains (key : string) (e : Example) : bool :=
  dict_has key (store e).

(** [example[key]]. *)
Definition Example_getitem (e : Example) (key : string) : result pyval :=
  match dict_get key (store e) with
  | Some v => Ok v
  | None => Raise (KeyError key)
  end.

(** [example.key]. *)
Definition Example_getattr (e : Example) (key : string) : result pyval :=
  match dict_get key (store e) with
  | Some v => Ok v
  | None => Raise (AttributeError key)
  end.

(** A prediction of the signature [ArgumentativeStructure]: its four output
    fields, each a string or [None]. *)
Record Prediction : Type := mkPrediction {
  topic_sentence : option string;
  evidence : option string;
  analysis : option string;
  tieback_or_transition : option string
}.

(** A prediction of the signature [TextCompleteness]. *)
Record Completeness : Type := mkCompleteness {
  missing_components : option string
}.

End Dspy.

Import Dspy.

(** ** The command-line parser *)

(** The part of the library [argparse] that the script uses, as CPython
    3.11 has it: positional arguments that take one value, long options that
    take one value (given as the next argument or after [=], abbreviated to
    an unambiguous prefix or not), the automatic [-h]/[--help], and the
    separator [--].  An error exits with status 2, help with status 0.  A
    parser is the list of what was declared. *)
Module Argparse.

Record LongOption : Type := mkLongOption {
  option_string : string;
  opt_dest : string;
  choices : option (list string);
  default : option string
}.

Inductive Action : Type :=
| Store (o : LongOption)
| Help.

Record Parser : Type := mkParser {
  positionals : list string;            (* the [dest] of each, in order *)
  long_options : list LongOption
}.

(** [argparse.ArgumentParser(...)]. *)
Definition ArgumentParser : Parser :=
  {| positionals := []; long_options := [] |}.

(** [option_string.lstrip('-').replace('-', '_')]. *)
Fixpoint lstrip_dash (s : string) : string :=
  match s with
  | String "-" s' => lstrip_dash s'
  | _ => s
  end.

Fixpoint dash_to_underscore (s : string) : string :=
  match s with
  | EmptyString => EmptyString
  | String c s' =>
      String (if Ascii.eqb c "-" then "_"%char else c) (dash_to_underscore s')
  end.

(** [parser.add_argument(name, choices=..., default=...)] for a positional
    name or a long option. *)
Definition add_argument (name : string) (chs : option (list string))
  (dflt : option string) (p : Parser) : Parser :=
  if startswith "--" name
  then {| positionals := positionals p;
          long_options :=
            long_options p ++
            [{| option_string := name;
                opt_dest := dash_to_underscore (lstrip_dash name);
                choices := chs;
                default := dflt |}] |}
  else {| positionals := positionals p ++ [name];
          long_options := long_options p |}.

(** The option strings of the parser and their actions. *)
Definition option_string_actions (p : Parser) : list (string * Action) :=
  [("-h", Help); ("--help", Help)]
  ++ map (fun o => (option_string o, Store o)) (long_options p).

Fixpoint assoc {A : Type} (k : string) (l : list (string * A)) : option A :=
  match l with
  | [] => None
  | (k', v) :: l' => if String.eqb k k' then Some v else assoc k l'
  end.

(** [s.split('=', 1)] when [=] occurs in [s]. *)
Fixpoint split_eq (s : string) : option (string * string) :=
  match s with
  | EmptyString => None
  | String c s' =>
      if Ascii.eqb c "="
      then Some (EmptyString, s')
      else match split_eq s' with
           | Some (a, b) => Some (String c a, b)
           | None => None
           end
  end.

Definition is_digit (c : ascii) : bool :=
  let n := nat_of_ascii c in Nat.leb 48 n && Nat.leb n 57.

Fixpoint all_digits (s : string) : bool :=
  match s with
  | EmptyString => true
  | String c s' => is_digit c && all_digits s'
  end.

(** Digits, then optionally a point and at least one digit; [seen] tells
    whether a digit was read before the point. *)
Fixpoint number_body (seen : bool) (s : string) : bool :=
  match s with
  | EmptyString => seen
  | String c s' =>
      if is_digit c then number_body true s'
      else if Ascii.eqb c "."
           then negb (String.eqb s' EmptyString) && all_digits s'
           else false
  end.

Fixpoint drop_final_newline (s : string) : string :=
  match s with
  | EmptyString => EmptyString
  | String c EmptyString => if Ascii.eqb c "010" then EmptyString else s
  | String c s' => String c (drop_final_newline s')
  end.

(** The parser's test for a negative number: a dash, then digits, or
    digits with a fraction; one final newline is passed over. *)
Definition negative_number (s : string) : bool :=
  match s with
  | String "-" body =>
      number_body false body || number_body false (drop_final_newline body)
  | _ => false
  end.

(** How one argument string is read. *)
Inductive Tok : Type :=
| TA (s : string)                                (* an argument *)
| TDash                                          (* the separator [--] *)
| TO (a : Action) (opt : string) (explicit : option string)
| TUnknown (s : string).                         (* no such option *)

Definition error {A : Type} : result A := Raise (SystemExit 2).

(** The options that an abbreviated or clustered [arg] may stand for. *)
Definition get_option_tuples (p : Parser) (arg : string)
  : list (Action * string * option string) :=
  match arg with
  | String "-" (String "-" _) =>
      let (option_prefix, explicit_arg) :=
        match split_eq arg with
        | Some (o, e) => (o, Some e)
        | None => (arg, None)
        end in
      map (fun oa => (snd oa, fst oa, explicit_arg))
        (filter (fun oa => startswith option_prefix (fst oa))
           (option_string_actions p))
  | String "-" (String c rest) =>
      let short_option_prefix := String "-" (String c EmptyString) in
      flat_map
        (fun oa =>
           if String.eqb (fst oa) short_option_prefix
           then [(snd oa, fst oa, Some rest)]
           else if startswith arg (fst oa)
                then [(snd oa, fst oa, None)]
                else [])
        (option_string_actions p)
  | _ => []
  end.

(** Is [arg] an option, and which one. *)
Definition parse_optional (p : Parser) (arg : string) : result Tok :=
  match arg with
  | EmptyString => Ok (TA arg)
  | String c _ =>
      if negb (Ascii.eqb c "-") then Ok (TA arg)
      else
        match assoc arg (option_string_actions p) with
        | Some a => Ok (TO a arg None)
        | None =>
            if Nat.eqb (String.length arg) 1 then Ok (TA arg)
            else
              let exact :=
                match split_eq arg with
                | Some (o, e) =>
                    match assoc o (option_string_actions p) with
                    | Some a => Some (TO a o (Some e))
                    | None => None
                    end
                | None => None
                end in
              match exact with
              | Some t => Ok t
              | None =>
                  match get_option_tuples p arg with
                  | _ :: _ :: _ => error
                  | [(a, o, e)] => Ok (TO a o e)
                  | [] =>
                      if negative_number arg then Ok (TA arg)
                      else if contains " " arg then Ok (TA arg)
                      else Ok (TUnknown arg)
                  end
              end
        end
  end.

(** All argument strings are read before any is acted on; after [--]
    everything is an argument. *)
Fixpoint classify (p : Parser) (argv : list string) : result (list Tok) :=
  match argv with
  | [] => Ok []
  | arg :: rest =>
      if String.eqb arg "--" then Ok (TDash :: map TA rest)
      else
        (t <- parse_optional p arg ;;
         ts <- classify p rest ;;
         Ok (t :: ts))%py
  end.

(** The namespace: the attributes that were set, each a string or the empty
    list (see [get_values]). *)
Definition Namespace : Type := list (string * pyval).

Fixpoint setattr (ns : Namespace) (dest : string) (value : pyval)
  : Namespace :=
  match ns with
  | [] => [(dest, value)]
  | (d, v) :: ns' =>
      if String.eqb d dest then (d, value) :: ns'
      else (d, v) :: setattr ns' dest value
  end.

Definition getattr (ns : Namespace) (dest : string) : result pyval :=
  match assoc dest ns with
  | Some v => Ok v
  | None => Raise (AttributeError dest)
  end.

(** The check of a value against the choices of an argument. *)
Definition check_value (chs : option (list string)) (value : string)
  : result unit :=
  match chs with
  | Some allowed => if list_contains value allowed then Ok tt else error
  | None => Ok tt
  end.

Fixpoint check_values (chs : option (list string)) (values : list string)
  : result unit :=
  match values with
  | [] => Ok tt
  | v :: rest =>
      (_ <- check_value chs v ;;
       check_values chs rest)%py
  end.

(** [l.remove(x)], or [l] when [x] is not in it. *)
Fixpoint remove_first (x : string) (l : list string) : list string :=
  match l with
  | [] => []
  | y :: l' => if String.eqb y x then l' else y :: remove_first x l'
  end.

(** The value of an argument that takes one string, from the strings
    [arg_strings] that were matched for it: the first [--] among them is
    taken out; a single string that is left is checked against the choices
    and is the value; otherwise the value is the list of what is left, each
    string checked, and so the empty list when nothing is left. *)
Definition get_values (chs : option (list string)) (arg_strings : list string)
  : result pyval :=
  match remove_first "--" arg_strings with
  | [arg_string] =>
      (_ <- check_value chs arg_string ;;
       Ok (PStr arg_string))%py
  | values =>
      (_ <- check_values chs values ;;
       Ok (PList (map PStr values)))%py
  end.

Fixpoint all_h (s : string) : bool :=
  match s with
  | EmptyString => true
  | String c s' => Ascii.eqb c "h" && all_h s'
  end.

(** [-h] and [--help]: print the help and exit; an explicit argument is only
    accepted as further [-h] flags written in one cluster. *)
Definition take_help {A : Type} (opt : string) (explicit : option string)
  : result A :=
  match explicit with
  | None => Raise (SystemExit 0)
  | Some e =>
      if String.eqb opt "-h" && negb (String.eqb e EmptyString) && all_h e
      then Raise (SystemExit 0)
      else error
  end.

(** The arguments are consumed from left to right.  [pos] are the
    positionals still to be filled, [extras] the strings nothing took.  A
    positional takes one argument, with the separator before or after it; an
    option takes its explicit argument or the next argument. *)
Fixpoint consume (toks : list Tok) (pos : list string) (ns : Namespace)
  (extras : list string) : result (list string * Namespace * list string) :=
  match toks with
  | [] => Ok (pos, ns, extras)
  | TA s :: rest =>
      match pos with
      | dest :: pos' =>
          match rest with
          | TDash :: rest' =>
              (value <- get_values None [s; "--"] ;;
               consume rest' pos' (setattr ns dest value) extras)%py
          | _ =>
              (value <- get_values None [s] ;;
               consume rest pos' (setattr ns dest value) extras)%py
          end
      | [] => consume rest [] ns (extras ++ [s])
      end
  | TDash :: rest =>
      match pos, rest with
      | dest :: pos', TA s :: rest' =>
          (value <- get_values None ["--"; s] ;;
           consume rest' pos' (setattr ns dest value) extras)%py
      | _, _ => consume rest pos ns (extras ++ ["--"])
      end
  | TO Help opt explicit :: _ => take_help opt explicit
  | TO (Store o) _ (Some arg) :: rest =>
      (value <- get_values (choices o) [arg] ;;
       consume rest pos (setattr ns (opt_dest o) value) extras)%py
  | TO (Store o) _ None :: rest =>
      match rest with
      | TA arg :: rest' =>
          (value <- get_values (choices o) [arg] ;;
           consume rest' pos (setattr ns (opt_dest o) value) extras)%py
      | _ => error
      end
  | TUnknown s :: rest => consume rest pos ns (extras ++ [s])
  end.

(** The namespace before any argument is read: the defaults. *)
Fixpoint defaults (opts : list LongOption) : Namespace :=
  match opts with
  | [] => []
  | o :: opts' =>
      match default o with
      | Some d => (opt_dest o, PStr d) :: defaults opts'
      | None => defaults opts'
      end
  end.

(** [parser.parse_args(argv)]. *)
Definition parse_args (p : Parser) (argv : list string) : result Namespace :=
  (toks <- classify p argv ;;
   r <- consume toks (positionals p) (defaults (long_options p)) [] ;;
   match r with
   | ([], ns, []) => Ok ns
   | _ => error
   end)%py.

End Argparse.

(** ** The script *)

Module Extractor.

(** The calls made to the two predictors, in the order they are made. *)
Inductive Call : Type :=
| Classify (text : string)
| Extract (context : string).

(** The optimizers of the framework, with the arguments [main] gives them
    ([prompt_model] is the global [lm]). *)
Inductive Optimizer : Type :=
| BootstrapFewShot (metric : Example -> Prediction -> result bool)
| MIPROv2 (metric : Example -> Prediction -> result bool) (auto : string)
    (max_labeled_demos max_bootstrapped_demos : nat).

Section Script.

(** The state of everything behind [dspy]: the remote model, its cache, the
    random choices of the optimizer. *)
Variable LM : Type.

(** [dspy.Predict(signature)]: calling it sends a request and parses the
    reply, or raises; [instructions] and [demos] are what the optimizer
    tunes. *)
Record Predict (Out : Type) : Type := mkPredict {
  run : string -> LM -> result Out * LM;
  instructions : string;
  demos : option (list Example)
}.

Arguments run {Out} p text st.
Arguments instructions {Out} p.
Arguments demos {Out} p.

(** [dspy.Predict(TextCompleteness)] and
    [dspy.Predict(ArgumentativeStructure)]. *)
Variable Predict_TextCompleteness : Predict Completeness.
Variable Predict_ArgumentativeStructure : Predict Prediction.

(** [dspy.evaluate.answer_exact_match]. *)
Variable answer_exact_match : option string -> pyval -> result bool.

(** [open(path, 'r', encoding='utf-8')] followed by reading the file, and
    [json.load]. *)
Variable open_read : string -> result string.
Variable json_load : string -> result pyval.

(** The world the stateful part of the script runs in. *)
Record World : Type := mkWorld {
  lm : LM;
  calls : list Call
}.

Definition M (A : Type) : Type := World -> result A * World.

Definition ret {A : Type} (a : A) : M A := fun w => (Ok a, w).

Definition bindM {A B : Type} (m : M A) (k : A -> M B) : M B :=
  fun w =>
    match m w with
    | (Ok a, w') => k a w'
    | (Raise e, w') => (Raise e, w')
    end.

Definition lift {A : Type} (r : result A) : M A := fun w => (r, w).

Notation "x <~ m ;; k" := (bindM m (fun x => k))
  (at level 61, m at next level, right associativity).

(** Calling a predictor: the call is recorded, the model's state moves on. *)
Definition call {Out : Type} (p : Predict Out) (c : Call) (text : string)
  : M Out :=
  fun w =>
    let (r, st) := run p text (lm w) in
    (r, {| lm := st; calls := calls w ++ [c] |}).

(** [class ArgumentativeExtractor(dspy.Module)]. *)
Record ArgumentativeExtractor : Type := mkExtractor {
  completeness_classifier : Predict Completeness;
  structure_extractor : Predict Prediction
}.

(** [ArgumentativeExtractor.__init__]. *)
Definition init : ArgumentativeExtractor :=
  {| completeness_classifier := Predict_TextCompleteness;
     structure_extractor := Predict_ArgumentativeStructure |}.

(** [completeness_result.missing_components.<method>]: [None] has no string
    method. *)
Definition str_method (attr : string) (v : option string) : result string :=
  match v with
  | Some s => Ok s
  | None => Raise (AttributeError attr)
  end.

(** The message of the incomplete branch. *)
Definition message_of (missing_parts : list string) : string :=
  "The provided text is incomplete. The following components are missing: "
  ++ join ", " missing_parts ++ ".".

(** [ArgumentativeExtractor.forward]. *)
Definition forward (self : ArgumentativeExtractor) (text : string)
  : M Prediction :=
  completeness_result <~ call (completeness_classifier self) (Classify text) text ;;
  mc <~ lift (str_method "lower" (missing_components completeness_result)) ;;
  if contains "all_present" (lower mc) then
    extraction_result <~ call (structure_extractor self) (Extract text) text ;;
    ret extraction_result
  else
    let missing_parts := split "," (replace " " "" mc) in
    let message := message_of missing_parts in
    ret {| topic_sentence := None;
           evidence := None;
           analysis := None;
           tieback_or_transition := Some message |}.

(** [is_text_complete_and_correct]. *)
Definition is_text_complete_and_correct (example : Example)
  (prediction : Prediction) : result bool :=
  (if Example_contains "missing" example then
     missing <- Example_getitem example "missing" ;;
     parts <- py_split missing "," ;;
     let expected_missing_parts := sorted parts in
     t <- str_method "split" (tieback_or_transition prediction) ;;
     tail <- index_last (split ":" t) ;;
     let predicted_missing_parts := sorted (split ", " (strip tail)) in
     if forallb (fun part => list_contains part predicted_missing_parts)
          expected_missing_parts
     then Ok true
     else Ok false
   else
     e1 <- Example_getitem example "topic_sentence" ;;
     m1 <- answer_exact_match (topic_sentence prediction) e1 ;;
     e2 <- Example_getitem example "evidence" ;;
     m2 <- answer_exact_match (evidence prediction) e2 ;;
     e3 <- Example_getitem example "analysis" ;;
     m3 <- answer_exact_match (analysis prediction) e3 ;;
     e4 <- Example_getitem example "tieback_or_transition" ;;
     m4 <- answer_exact_match (tieback_or_transition prediction) e4 ;;
     correct <- builtin_all [PBool m1; PBool m2; PBool m3; PBool m4] ;;
     Ok correct)%py.

(** The loop of [load_trainset]: one example per item, appended in order. *)
Fixpoint load_samples (samples : list pyval) (trainset : list Example)
  : result (list Example) :=
  match samples with
  | [] => Ok trainset
  | sample :: rest =>
      (example <- Example_of sample ;;
       load_samples rest (trainset ++ [example]))%py
  end.

(** [load_trainset]. *)
Definition load_trainset (json_file_path : string) : result (list Example) :=
  (f <- open_read json_file_path ;;
   data <- json_load f ;;
   samples <- py_getitem data "samples" ;;
   items <- py_iter samples ;;
   load_samples items [])%py.

(** [optimizer.compile(student=..., trainset=...)]. *)
Variable optimizer_compile :
  Optimizer -> ArgumentativeExtractor -> list Example ->
  LM -> result ArgumentativeExtractor * LM.

(** The reads of [demo.<field>] that printing one list of demos makes, demo
    after demo and field after field. *)
Fixpoint read_fields (demo : Example) (fields : list string) : result unit :=
  match fields with
  | [] => Ok tt
  | f :: rest =>
      (_ <- Example_getattr demo f ;;
       read_fields demo rest)%py
  end.

Fixpoint print_demos (ds : list Example) (fields : list string)
  : result unit :=
  match ds with
  | [] => Ok tt
  | demo :: rest =>
      (_ <- read_fields demo fields ;;
       print_demos rest fields)%py
  end.

(** [demos or []]. *)
Definition demos_or_empty (ds : option (list Example)) : list Example :=
  match ds with
  | Some (d :: l) => d :: l
  | Some [] | None => []
  end.

(** [print_full_prompt]. *)
Definition print_full_prompt (compiled_module : ArgumentativeExtractor)
  : result unit :=
  (_ <- print_demos
          (demos_or_empty (demos (completeness_classifier compiled_module)))
          ["text"; "missing_components"] ;;
   _ <- print_demos
          (demos_or_empty (demos (structure_extractor compiled_module)))
          ["context"; "topic_sentence"; "evidence"; "analysis";
           "tieback_or_transition"] ;;
   Ok tt)%py.

Definition unseen_text_complete : string :=
  "Regular physical activity leads to significant improvements in mental health. For instance, a 2023 study published in The Lancet showed that individuals who exercised for at least 150 minutes per week reported a 30% reduction in symptoms of anxiety and depression compared to a control group. This outcome suggests that exercise acts as a powerful non-pharmacological intervention, directly impacting neurological pathways related to mood regulation. Therefore, integrating exercise programs into public health initiatives is an effective way to address the growing mental health crisis.".

Definition unseen_text_incomplete : string := "Dogs are the best pets.".

(** [main]. *)
Definition main (json_file_path : string) (optimizer_type : pyval)
  : M ArgumentativeExtractor :=
  trainset <~ lift (load_trainset json_file_path) ;;
  let optimizer :=
    if py_eq_str optimizer_type "BootstrapFewShot"
    then BootstrapFewShot is_text_complete_and_correct
    else MIPROv2 is_text_complete_and_correct "light" 3 3 in
  compiled_extractor <~
    (fun w =>
       let (r, st) := optimizer_compile optimizer init trainset (lm w) in
       (r, {| lm := st; calls := calls w |})) ;;
  _ <~ forward compiled_extractor unseen_text_complete ;;
  _ <~ forward compiled_extractor unseen_text_incomplete ;;
  _ <~ lift (print_full_prompt compiled_extractor) ;;
  ret compiled_extractor.

(** The parser declared under [if __name__ == "__main__"]. *)
Definition parser : Argparse.Parser :=
  Argparse.add_argument "--optimizer"
    (Some ["BootstrapFewShot"; "MIPROv2"]) (Some "MIPROv2")
    (Argparse.add_argument "json_file" None None Argparse.ArgumentParser).

(** The name given to [open]: anything that is not a string is refused with
    [TypeError]. *)
Definition as_path (v : pyval) : result string :=
  match v with
  | PStr path => Ok path
  | _ => Raise TypeError
  end.

(** The script run from the command line, [argv] being [sys.argv[1:]].
    [main] opens the file before anything else, so the refusal of a name
    that is not a string is placed before the call. *)
Definition script (argv : list string) : M ArgumentativeExtractor :=
  args <~ lift (Argparse.parse_args parser argv) ;;
  json_file <~ lift (Argparse.getattr args "json_file") ;;
  optimizer <~ lift (Argparse.getattr args "optimizer") ;;
  json_file_path <~ lift (as_path json_file) ;;
  main json_file_path optimizer.

End Script.

Arguments run {LM Out} p text st.
Arguments instructions {LM Out} p.
Arguments demos {LM Out} p.
Arguments mkPredict {LM Out} run instructions demos.
Arguments lm {LM} w.
Arguments calls {LM} w.
Arguments mkWorld {LM} lm calls.
Arguments ret {LM A} a w.
Arguments bindM {LM A B} m k w.
Arguments lift {LM A} r w.
Arguments call {LM Out} p c text w.
Arguments completeness_classifier {LM} a.
Arguments structure_extractor {LM} a.
Arguments mkExtractor {LM} completeness_classifier structure_extractor.
Arguments init {LM} Predict_TextCompleteness Predict_ArgumentativeStructure.
Arguments forward {LM} self text w.
Arguments print_full_prompt {LM} compiled_module.
Arguments main {LM} Predict_TextCompleteness Predict_ArgumentativeStructure
  answer_exact_match open_read json_load optimizer_compile
  json_file_path optimizer_type w.
Arguments script {LM} Predict_TextCompleteness Predict_ArgumentativeStructure
  answer_exact_match open_read json_load optimizer_compile argv w.

End Extractor.

(** * Vocabulary of the properties *)

Module Vocabulary.

Import Argparse Extractor.

(** ** Strings *)

(** [c in s] for a character. *)
Fixpoint has_char (c : ascii) (s : string) : bool :=
  match s with
  | EmptyString => false
  | String d s' => Ascii.eqb c d || has_char c s'
  end.

(** The first piece of a split grows by one character to the left. *)
Definition cons_head (c : ascii) (l : list string) : list string :=
  match l with
  | h :: t => String c h :: t
  | [] => [String c EmptyString]
  end.

(** The first piece of a split grows by a whole string to the left. *)
Definition prepend (p : string) (l : list string) : list string :=
  match l with
  | h :: t => (p ++ h)%string :: t
  | [] => [p]
  end.

(** The parts with a period glued to the last one. *)
Definition with_final_period (parts : list string) : list string :=
  removelast parts ++ [(last parts EmptyString ++ ".")%string].

(** [s[:1].isspace()]: the string begins with a white space. *)
Definition starts_with_space (s : string) : bool :=
  match s with
  | EmptyString => false
  | String c _ => isspace c
  end.

(** [s] with every occurrence of the character [c] taken out. *)
Fixpoint remove_char (c : ascii) (s : string) : string :=
  match s with
  | EmptyString => EmptyString
  | String d s' =>
      if Ascii.eqb c d then remove_char c s' else String d (remove_char c s')
  end.

(** ** Predictions *)

(** The prediction of the incomplete branch. *)
Definition diagnostic (mc : string) : Prediction :=
  {| topic_sentence := None;
     evidence := None;
     analysis := None;
     tieback_or_transition :=
       Some (message_of (split "," (replace " " "" mc))) |}.





(** ** Failures *)

(** The exception of the first step that raises, if one does. *)
Fixpoint first_raise {A : Type} (steps : list (result A)) : option exn :=
  match steps with
  | [] => None
  | Ok _ :: rest => first_raise rest
  | Raise e :: _ => Some e
  end.

(** One argument of the call of [all] in the metric: the lookup of the
    expected field, then the comparison. *)
Definition field_match
  (answer_exact_match : option string -> pyval -> result bool)
  (example : Example) (field : string)
  (predicted : option string) : result bool :=
  (expected <- Example_getitem example field ;;
   answer_exact_match predicted expected)%py.

(** The optimizer [main] builds. *)
Definition optimizer_of
  (answer_exact_match : option string -> pyval -> result bool)
  (optimizer_type : pyval) : Optimizer :=
  if py_eq_str optimizer_type "BootstrapFewShot"
  then BootstrapFewShot (is_text_complete_and_correct answer_exact_match)
  else MIPROv2 (is_text_complete_and_correct answer_exact_match) "light" 3 3.

(** ** The command line *)

(** The option the script declares. *)
Definition optimizer_option : LongOption :=
  {| option_string := "--optimizer";
     opt_dest := "optimizer";
     choices := Some ["BootstrapFewShot"; "MIPROv2"];
     default := Some "MIPROv2" |}.

(** The two values the option may take. *)
Definition valid_optimizer (o : string) : Prop :=
  o = "BootstrapFewShot" \/ o = "MIPROv2".

(** What the attribute [optimizer] may hold after [argv] was parsed: one of
    the two names, or the empty list when an argument of [argv] gave the
    option the explicit value [--]. *)
Definition valid_value (argv : list string) (v : pyval) : Prop :=
  (exists o, valid_optimizer o /\ v = PStr o) \/
  (v = PList [] /\
   exists arg pre, In arg argv /\ arg = (pre ++ "=--")%string).

(** An argument string that is read as an argument. *)
Definition is_argument (a : string) : Prop :=
  parse_optional parser a = Ok (TA a) /\ a <> "--".

(** What a token read from an argument of [argv] other than [--] may be. *)
Definition plain_tok (argv : list string) (t : Tok) : Prop :=
  match t with
  | TA s => In s argv /\ s <> "--"
  | TDash => False
  | TUnknown _ => True
  | TO a _ e =>
      a = Help \/
      (a = Store optimizer_option /\
       (e = Some "--" ->
        exists arg pre, In arg argv /\ arg = (pre ++ "=--")%string))
  end.

(** The tokens read from [argv]: plain ones, then possibly the separator
    and arguments only. *)
Inductive wf_toks (argv : list string) : list Tok -> Prop :=
| wf_nil : wf_toks argv []
| wf_dash (rest : list string) :
    incl rest argv -> wf_toks argv (TDash :: map TA rest)
| wf_cons (t : Tok) (toks : list Tok) :
    plain_tok argv t -> wf_toks argv toks -> wf_toks argv (t :: toks).

(** The namespace while the arguments are consumed. *)
Definition ns_ok (argv : list string) (pos : list string) (ns : Namespace)
  : Prop :=
  exists o, valid_value argv o /\
    ((pos = ["json_file"] /\ ns = [("optimizer", o)]) \/
     (pos = [] /\ exists f, In f argv /\
        ns = [("optimizer", o); ("json_file", PStr f)])).

(** The item is an object without the key [self]. *)
Definition accepted_item (v : pyval) : bool :=
  match v with
  | PDict d => negb (dict_has "self" d)
  | _ => false
  end.

(** The record has no key that the constructor of [dspy.Example] takes for
    one of its own parameters. *)
Definition plain_record (d : dict) : bool :=
  negb (dict_has "self" d) && negb (dict_has "base" d).

(** ** Demos, records and calls *)

(** The demo holds every field of [fields]. *)
Definition has_fields (fields : list string) (demo : Example) : bool :=
  forallb (fun f => Example_contains f demo) fields.

(** The value is a JSON object. *)
Definition is_record (v : pyval) : bool :=
  match v with
  | PDict _ => true
  | _ => false
  end.

(** The value is a string. *)
Definition is_str (v : pyval) : bool :=
  match v with
  | PStr _ => true
  | _ => false
  end.

(** The calls of one run of [forward] on [text]: the classifier, then the
    extractor or not. *)
Definition forward_calls (text : string) (extracted : bool) : list Call :=
  Classify text :: (if extracted then [Extract text] else []).

End Vocabulary.

(** * Inputs the properties are run on *)

Module Samples.

Import Extractor.

(** A comparison of a field with the expected value: equal strings. *)
Definition same_string (p : option string) (e : pyval) : result bool :=
  match p, e with
  | Some s, PStr s' => Ok (String.eqb s s')
  | _, _ => Ok false
  end.

Definition example_missing : Example :=
  mkExample [("text", PStr "Dogs are the best pets.");
             ("missing", PStr "evidence,analysis")].

Definition prediction_missing : Prediction :=
  {| topic_sentence := None; evidence := None; analysis := None;
     tieback_or_transition :=
       Some "The following components are missing: analysis, evidence, tieback" |}.

Definition example_fields : Example :=
  mkExample [("text", PStr "T. E. A. B.");
             ("topic_sentence", PStr "T.");
             ("evidence", PStr "E.");
             ("analysis", PStr "A.");
             ("tieback_or_transition", PStr "B.")].

Definition prediction_fields : Prediction :=
  {| topic_sentence := Some "T."; evidence := Some "E.";
     analysis := Some "A."; tieback_or_transition := Some "B." |}.

(** A predictor that answers the same whatever it is asked, and a module
    made of two of them. *)
Definition fixed_predict {Out : Type} (r : result Out) : Predict unit Out :=
  mkPredict (fun _ st => (r, st)) "" None.

Definition fixed_extractor (mc : option string) (r : result Prediction)
  : ArgumentativeExtractor unit :=
  mkExtractor (fixed_predict (Ok (mkCompleteness mc))) (fixed_predict r).

Definition w0 : World unit := mkWorld tt [].

Definition four_fields : Prediction :=
  mkPrediction (Some "T.") (Some "E.") (Some "A.") (Some "B.").


(** A file system with one file, and a parser that knows its content. *)
Definition one_file (name content : string) (path : string) : result string :=
  if String.eqb path name then Ok content
  else Raise (Foreign "FileNotFoundError" path).

Definition parses_to (content : string) (data : pyval) (f : string)
  : result pyval :=
  if String.eqb f content then Ok data
  else Raise (Foreign "JSONDecodeError" "Expecting value").

Definition train_json : string := "<the text of train.json>".

Definition train_records : list dict :=
  [[("text", PStr "Dogs are the best pets."); ("missing", PStr "evidence")];
   [("text", PStr "T. E. A. B."); ("topic_sentence", PStr "T.")]].

Definition train_data : pyval :=
  PDict [("version", PInt 1); ("samples", PList (map PDict train_records))].

(** A file that is not JSON. *)
Definition malformed (f : string) : result pyval :=
  Raise (Foreign "JSONDecodeError" "Expecting value").

(** An optimizer that gives the student back. *)
Definition keep_student (o : Optimizer) (student : ArgumentativeExtractor unit)
  (trainset : list Example) (st : unit)
  : result (ArgumentativeExtractor unit) * unit :=
  (Ok student, st).

(** A compiled module whose classifier has a demo without its label. *)
Definition module_with_short_demo : ArgumentativeExtractor unit :=
  mkExtractor
    (mkPredict (fun _ st => (Ok (mkCompleteness (Some "evidence")), st))
       "Classify the text."
       (Some [mkExample [("text", PStr "Dogs are the best pets.")]]))
    (fixed_predict (Ok four_fields)).

(** An optimizer that fails. *)
Definition failing_optimizer (o : Optimizer)
  (student : ArgumentativeExtractor unit) (trainset : list Example)
  (st : unit) : result (ArgumentativeExtractor unit) * unit :=
  (Raise (Foreign "APIError" "rate limit"), st).

(** A comparison that always fails. *)
Definition failing_match (p : option string) (e : pyval) : result bool :=
  Raise (Foreign "APIError" "rate limit").

End Samples.

(** * Properties *)

(** ** Facts about the string operations *)

Module PyFacts.

Import Vocabulary.

Lemma append_empty_r (s : string) : (s ++ "")%string = s.
Proof. induction s as [|c s IH]; simpl; [reflexivity | now rewrite IH]. Qed.

Lemma append_assoc (a b c : string) :
  ((a ++ b) ++ c)%string = (a ++ (b ++ c))%string.
Proof. induction a as [|x a IH]; simpl; [reflexivity | now rewrite IH]. Qed.

Lemma split_from_not_nil (sep : string) (s : string) :
  forall k, split_from sep k s <> [].
Proof.
  induction s as [|c s IH]; intros k; simpl.
  - discriminate.
  - destruct k as [|k]; [|apply IH].
    destruct (startswith sep (String c s)); [discriminate|].
    destruct (split_from sep 0 s); discriminate.
Qed.

Lemma split_not_nil (sep s : string) : split sep s <> [].
Proof. apply split_from_not_nil. Qed.

(** One step of [split] for a separator of one character. *)
Lemma split_char_cons (c d : ascii) (s : string) :
  split (String c "") (String d s) =
  if Ascii.eqb c d then "" :: split (String c "") s
  else cons_head d (split (String c "") s).
Proof.
  unfold split; simpl.
  destruct (Ascii.eqb c d); simpl; reflexivity.
Qed.

Lemma split_char_empty (c : ascii) : split (String c "") "" = [""].
Proof. reflexivity. Qed.

Lemma cons_head_app (d : ascii) (l1 l2 : list string) :
  l1 <> [] -> cons_head d (l1 ++ l2) = cons_head d l1 ++ l2.
Proof. destruct l1; [congruence | reflexivity]. Qed.

(** Splitting at a character distributes over an occurrence of it. *)
Lemma split_char_app (c : ascii) (a b : string) :
  split (String c "") (a ++ String c b)%string =
  split (String c "") a ++ split (String c "") b.
Proof.
  induction a as [|d a IH].
  - simpl. rewrite split_char_cons, Ascii.eqb_refl. reflexivity.
  - change (String d a ++ String c b)%string
      with (String d (a ++ String c b)%string).
    rewrite !split_char_cons, IH.
    destruct (Ascii.eqb c d); [reflexivity|].
    apply cons_head_app, split_not_nil.
Qed.

(** A string without the separator character is a single piece. *)
Lemma split_char_none (c : ascii) (s : string) :
  has_char c s = false -> split (String c "") s = [s].
Proof.
  induction s as [|d s IH]; simpl; intros H; [reflexivity|].
  apply orb_false_iff in H as [Hd Hs].
  rewrite split_char_cons, Hd, (IH Hs). reflexivity.
Qed.

(** No piece of a split at [c] holds a [c], and what the string does not
    hold, its pieces do not hold. *)
Lemma split_char_pieces (c x : ascii) (s : string) :
  (x = c \/ has_char x s = false) ->
  Forall (fun p => has_char x p = false) (split (String c "") s).
Proof.
  induction s as [|d s IH]; intros H.
  - repeat constructor.
  - rewrite split_char_cons.
    assert (Hs : x = c \/ has_char x s = false).
    { destruct H as [H|H]; [now left|right].
      simpl in H. now apply orb_false_iff in H. }
    specialize (IH Hs).
    destruct (Ascii.eqb c d) eqn:E.
    + constructor; [reflexivity | exact IH].
    + pose proof (split_not_nil (String c "") s) as Hn.
      destruct (split (String c "") s) as [|h t]; [congruence|].
      simpl. inversion IH; subst. constructor; [|assumption].
      simpl. apply orb_false_iff. split; [|assumption].
      destruct H as [->|H]; [exact E|].
      simpl in H. now apply orb_false_iff in H.
Qed.

Lemma has_char_app (x : ascii) (a b : string) :
  has_char x (a ++ b)%string = has_char x a || has_char x b.
Proof.
  induction a as [|d a IH]; simpl; [reflexivity|].
  now rewrite IH, orb_assoc.
Qed.

Lemma has_char_join (x : ascii) (sep : string) (parts : list string) :
  has_char x sep = false ->
  Forall (fun p => has_char x p = false) parts ->
  has_char x (join sep parts) = false.
Proof.
  intros Hsep. induction parts as [|p [|q t] IH]; intros H; simpl.
  - reflexivity.
  - now inversion H.
  - inversion H; subst.
    rewrite !has_char_app. rewrite Hsep.
    replace (has_char x p) with false by (symmetry; assumption).
    simpl. apply IH. assumption.
Qed.

(** *** Splitting at [", "] what was joined with [", "] *)

Lemma split_cs_cons (d : ascii) (s : string) :
  split ", " (String d s) =
  if startswith ", " (String d s) then "" :: split_from ", " 1 s
  else cons_head d (split ", " s).
Proof. unfold split; simpl. destruct (Ascii.eqb "," d); reflexivity. Qed.

Lemma split_cs_sep (rest : string) :
  split ", " (", " ++ rest)%string = "" :: split ", " rest.
Proof. reflexivity. Qed.

Lemma prepend_empty (l : list string) : l <> [] -> prepend "" l = l.
Proof. destruct l; [congruence | reflexivity]. Qed.

Lemma cons_head_prepend (d : ascii) (p : string) (l : list string) :
  l <> [] -> cons_head d (prepend p l) = prepend (String d p) l.
Proof. destruct l; [congruence | reflexivity]. Qed.

Lemma split_cs_prepend (p rest : string) :
  has_char "," p = false ->
  split ", " (p ++ rest)%string = prepend p (split ", " rest).
Proof.
  induction p as [|d p IH]; intros H.
  - simpl. symmetry. apply prepend_empty, split_not_nil.
  - simpl in H. apply orb_false_iff in H as [Hd Hp].
    change (String d p ++ rest)%string with (String d (p ++ rest)%string).
    rewrite split_cs_cons. simpl startswith. rewrite Hd. simpl.
    rewrite (IH Hp). apply cons_head_prepend, split_not_nil.
Qed.

Lemma with_final_period_cons (p q : string) (t : list string) :
  with_final_period (p :: q :: t) = p :: with_final_period (q :: t).
Proof. reflexivity. Qed.

Lemma join_cons2 (sep p q : string) (t : list string) :
  join sep (p :: q :: t) = (p ++ sep ++ join sep (q :: t))%string.
Proof. reflexivity. Qed.

(** The parsing of the message gives back the parts that were joined, the
    last one with the period of the sentence. *)
Lemma split_join_period (parts : list string) :
  Forall (fun p => has_char "," p = false) parts ->
  split ", " (join ", " parts ++ ".")%string = with_final_period parts.
Proof.
  induction parts as [|p [|q t] IH]; intros H.
  - reflexivity.
  - inversion H; subst. simpl join.
    rewrite split_cs_prepend by assumption. reflexivity.
  - inversion H; subst.
    rewrite join_cons2, with_final_period_cons, !append_assoc.
    rewrite split_cs_prepend by assumption.
    rewrite split_cs_sep, (IH H3). simpl. now rewrite append_empty_r.
Qed.

(** *** [strip] *)

Lemma rstrip_period (y : string) : rstrip (y ++ ".") = (y ++ ".")%string.
Proof.
  induction y as [|c y IH]; [reflexivity|].
  simpl. rewrite IH. destruct y; reflexivity.
Qed.

Lemma lstrip_id (s : string) : starts_with_space s = false -> lstrip s = s.
Proof. destruct s as [|c s]; simpl; [reflexivity|]. now intros ->. Qed.

Lemma starts_with_space_joined (r : string) :
  starts_with_space r = false ->
  starts_with_space (join ", " (split "," r) ++ ".") = false.
Proof.
  destruct r as [|d r]; intros H; [reflexivity|].
  rewrite split_char_cons.
  pose proof (split_not_nil "," r) as Hn.
  destruct (split "," r) as [|h t]; [congruence|].
  destruct (Ascii.eqb "," d); [reflexivity|].
  simpl in H. destruct t; simpl; exact H.
Qed.

Lemma strip_tail (r : string) :
  starts_with_space r = false ->
  strip (" " ++ join ", " (split "," r) ++ ".") =
  (join ", " (split "," r) ++ ".")%string.
Proof.
  intros H. unfold strip.
  change (lstrip (" " ++ join ", " (split "," r) ++ "."))
    with (lstrip (join ", " (split "," r) ++ ".")).
  rewrite lstrip_id by now apply starts_with_space_joined.
  apply rstrip_period.
Qed.

(** *** [replace] of a character by nothing *)

Lemma join_empty_cons_head (d : ascii) (l : list string) :
  l <> [] -> join "" (cons_head d l) = String d (join "" l).
Proof.
  destruct l as [|h [|q t]]; [congruence | reflexivity | reflexivity].
Qed.

Lemma join_empty_cons_empty (l : list string) :
  join "" ("" :: l) = join "" l.
Proof. destruct l; reflexivity. Qed.

Lemma replace_char_remove (c : ascii) (s : string) :
  replace (String c "") "" s = remove_char c s.
Proof.
  unfold replace. induction s as [|d s IH]; [reflexivity|].
  rewrite split_char_cons. simpl remove_char.
  destruct (Ascii.eqb c d).
  - now rewrite join_empty_cons_empty.
  - rewrite join_empty_cons_head by apply split_not_nil. now rewrite IH.
Qed.

Lemma has_char_remove (x c : ascii) (s : string) :
  has_char x s = false -> has_char x (remove_char c s) = false.
Proof.
  induction s as [|d s IH]; simpl; intros H; [reflexivity|].
  apply orb_false_iff in H as [Hd Hs].
  destruct (Ascii.eqb c d); simpl; [now apply IH|].
  rewrite Hd. now apply IH.
Qed.

Lemma has_char_removed (c : ascii) (s : string) :
  has_char c (remove_char c s) = false.
Proof.
  induction s as [|d s IH]; simpl; [reflexivity|].
  destruct (Ascii.eqb c d) eqn:E; simpl; [exact IH | now rewrite E].
Qed.

(** *** [l[-1]] *)

Lemma index_last_app {A : Type} (l1 l2 : list A) :
  l2 <> [] -> index_last (l1 ++ l2) = index_last l2.
Proof.
  intros H. induction l1 as [|x l1 IH]; [reflexivity|].
  simpl. rewrite IH. destruct (l1 ++ l2) eqn:E; [|reflexivity].
  apply app_eq_nil in E as [_ E]. congruence.
Qed.

Lemma index_last_ok {A : Type} (l : list A) :
  l <> [] -> exists x, index_last l = Ok x.
Proof.
  induction l as [|x [|y t] IH]; intros H; [congruence | now exists x |].
  destruct IH as [z Hz]; [discriminate|]. exists z. exact Hz.
Qed.

Lemma index_last_split (sep s : string) :
  exists tail, index_last (split sep s) = Ok tail.
Proof. apply index_last_ok, split_not_nil. Qed.

(** The last piece of a split at [c] is what follows the last [c]. *)
Lemma index_last_split_char (c : ascii) (pre tail : string) :
  has_char c tail = false ->
  index_last (split (String c "") (pre ++ String c tail)) = Ok tail.
Proof.
  intros H. rewrite split_char_app, index_last_app by apply split_not_nil.
  now rewrite split_char_none.
Qed.

(** *** [sorted] and [in] *)

Lemma insert_sorted_perm (x : string) (l : list string) :
  Permutation (insert_sorted x l) (x :: l).
Proof.
  induction l as [|y t IH]; simpl; [reflexivity|].
  destruct (String.leb x y); [reflexivity|].
  rewrite IH. apply perm_swap.
Qed.

Lemma sorted_perm (l : list string) : Permutation (sorted l) l.
Proof.
  induction l as [|x t IH]; simpl; [reflexivity|].
  rewrite insert_sorted_perm. now constructor.
Qed.

Lemma sorted_In (x : string) (l : list string) : In x (sorted l) <-> In x l.
Proof.
  split; apply Permutation_in; [|symmetry]; apply sorted_perm.
Qed.

Lemma list_contains_In (x : string) (l : list string) :
  list_contains x l = true <-> In x l.
Proof.
  unfold list_contains. rewrite existsb_exists. split.
  - intros [y [Hy E]]. apply String.eqb_eq in E. now subst.
  - intros H. exists x. split; [assumption | apply String.eqb_refl].
Qed.

(** The test of the metric: every expected part is among the predicted. *)
Lemma all_parts_in (expected predicted : list string) :
  forallb (fun part => list_contains part (sorted predicted)) (sorted expected)
  = true <-> incl expected predicted.
Proof.
  rewrite forallb_forall. unfold incl. split; intros H x Hx.
  - apply sorted_In, list_contains_In, H, sorted_In, Hx.
  - apply list_contains_In, sorted_In, H, sorted_In, Hx.
Qed.

(** *** [in] and [lower] *)

Lemma startswith_iff (p s : string) :
  startswith p s = true <-> exists post, s = (p ++ post)%string.
Proof.
  revert s. induction p as [|a p IH]; intros s; simpl.
  - split; [intros _; now exists s | reflexivity].
  - destruct s as [|b s].
    + split; [discriminate | intros [post H]; discriminate].
    + rewrite andb_true_iff, Ascii.eqb_eq, IH. split.
      * intros [-> [post ->]]. now exists post.
      * intros [post H]. injection H as -> ->. split; [reflexivity|].
        now exists post.
Qed.

Lemma contains_iff (sub s : string) :
  contains sub s = true <->
  exists pre post, s = (pre ++ sub ++ post)%string.
Proof.
  induction s as [|c s IH].
  - simpl. rewrite orb_false_r, startswith_iff. split.
    + intros [post H]. now exists "", post.
    + intros [[|x pre] [post H]]; [now exists post | discriminate].
  - simpl. rewrite orb_true_iff, startswith_iff, IH. split.
    + intros [[post H] | [pre [post H]]].
      * now exists "", post.
      * exists (String c pre), post. simpl. now rewrite H.
    + intros [[|x pre] [post H]].
      * left. now exists post.
      * right. simpl in H. injection H as _ H. now exists pre, post.
Qed.

Lemma lower_app (a b : string) :
  lower (a ++ b) = (lower a ++ lower b)%string.
Proof. induction a as [|c a IH]; simpl; [reflexivity | now rewrite IH]. Qed.

Lemma lower_app_inv (s a' b' : string) :
  lower s = (a' ++ b')%string ->
  exists a b, s = (a ++ b)%string /\ lower a = a' /\ lower b = b'.
Proof.
  revert s. induction a' as [|c a' IH]; intros s H.
  - exists "", s. auto.
  - destruct s as [|d s]; [discriminate|].
    simpl in H. injection H as Hc H.
    destruct (IH _ H) as [a [b [-> [Ha Hb]]]].
    exists (String d a), b. simpl. now rewrite Hc, Ha.
Qed.

(** The test of [forward] is a search for the word in any case. *)
Lemma contains_lower_iff (sub s : string) :
  contains sub (lower s) = true <->
  exists pre mid post, s = (pre ++ mid ++ post)%string /\ lower mid = sub.
Proof.
  rewrite contains_iff. split.
  - intros [pre' [post' H]].
    destruct (lower_app_inv _ _ _ H) as [pre [r [-> [_ Hr]]]].
    destruct (lower_app_inv _ _ _ Hr) as [mid [post [-> [Hm _]]]].
    now exists pre, mid, post.
  - intros [pre [mid [post [-> <-]]]].
    exists (lower pre), (lower post). now rewrite !lower_app.
Qed.

End PyFacts.

(** ** The metric *)

Module MetricFacts.

Import Extractor Vocabulary Samples PyFacts.

Section Metric.

Variable answer_exact_match : option string -> pyval -> result bool.

(** With a ["missing"] field the metric looks at nothing but that field and
    the prediction's [tieback_or_transition]. *)
Lemma metric_missing_unfold (example : Example) (prediction : Prediction)
  (m t : string) :
  Example_contains "missing" example = true ->
  Example_getitem example "missing" = Ok (PStr m) ->
  tieback_or_transition prediction = Some t ->
  exists tail,
    index_last (split ":" t) = Ok tail /\
    is_text_complete_and_correct answer_exact_match example prediction =
    Ok (forallb (fun part => list_contains part (sorted (split ", " (strip tail))))
          (sorted (split "," m))).
Proof.
  intros Hin Hm Ht.
  destruct (index_last_split ":" t) as [tail Htail].
  exists tail. split; [exact Htail|].
  unfold is_text_complete_and_correct.
  rewrite Hin, Hm, Ht. simpl. rewrite Htail. simpl.
  now destruct (forallb _ _).
Qed.

(** C1.  For an example with a ["missing"] field, the metric returns [True]
    exactly when every expected label, the pieces of [example["missing"]]
    between commas, is in the list read from the prediction's
    [tieback_or_transition] (what follows its last colon, stripped, cut at
    [", "]); [incl] asks for membership only, whatever the order of either
    list.  When both fields are strings the metric does return. *)
Theorem metric_missing_iff (example : Example) (prediction : Prediction) :
  Example_contains "missing" example = true ->
  (is_text_complete_and_correct answer_exact_match example prediction = Ok true <->
   exists m t tail,
     Example_getitem example "missing" = Ok (PStr m) /\
     tieback_or_transition prediction = Some t /\
     index_last (split ":" t) = Ok tail /\
     incl (split "," m) (split ", " (strip tail)))
  /\
  (forall m t,
     Example_getitem example "missing" = Ok (PStr m) ->
     tieback_or_transition prediction = Some t ->
     exists b, is_text_complete_and_correct answer_exact_match example prediction = Ok b).
Proof.
  intros Hin. split; [split|].
  - intros H.
    unfold is_text_complete_and_correct in H. rewrite Hin in H.
    destruct (Example_getitem example "missing") as [v|e] eqn:Hv;
      [|discriminate].
    destruct v as [| | |m| |]; try discriminate.
    destruct (tieback_or_transition prediction) as [t|] eqn:Ht;
      [|discriminate].
    destruct (metric_missing_unfold example prediction m t Hin Hv Ht)
      as [tail [Htail Hmetric]].
    exists m, t, tail. repeat split; try assumption.
    apply all_parts_in.
    unfold is_text_complete_and_correct in Hmetric.
    rewrite Hin, Hv, Ht in Hmetric. rewrite Hmetric in H. congruence.
  - intros [m [t [tail [Hm [Ht [Htail Hincl]]]]]].
    destruct (metric_missing_unfold example prediction m t Hin Hm Ht)
      as [tail' [Htail' Hmetric]].
    rewrite Hmetric. f_equal.
    assert (tail' = tail) as -> by congruence.
    now apply all_parts_in.
  - intros m t Hm Ht.
    destruct (metric_missing_unfold example prediction m t Hin Hm Ht)
      as [tail [_ Hmetric]].
    eexists. exact Hmetric.
Qed.

(** The verdict does not depend on the order of the expected labels nor on
    the order of the predicted ones. *)
Lemma metric_missing_order (example example' : Example)
  (prediction prediction' : Prediction) (m m' t t' tail tail' : string) :
  Example_contains "missing" example = true ->
  Example_contains "missing" example' = true ->
  Example_getitem example "missing" = Ok (PStr m) ->
  Example_getitem example' "missing" = Ok (PStr m') ->
  tieback_or_transition prediction = Some t ->
  tieback_or_transition prediction' = Some t' ->
  index_last (split ":" t) = Ok tail ->
  index_last (split ":" t') = Ok tail' ->
  Permutation (split "," m) (split "," m') ->
  Permutation (split ", " (strip tail)) (split ", " (strip tail')) ->
  is_text_complete_and_correct answer_exact_match example prediction =
  is_text_complete_and_correct answer_exact_match example' prediction'.
Proof.
  intros Hin Hin' Hm Hm' Ht Ht' Htail Htail' Pe Pp.
  destruct (metric_missing_unfold example prediction m t Hin Hm Ht)
    as [x [Hx ->]].
  destruct (metric_missing_unfold example' prediction' m' t' Hin' Hm' Ht')
    as [x' [Hx' ->]].
  assert (x = tail) as -> by congruence.
  assert (x' = tail') as -> by congruence.
  f_equal. apply eq_iff_eq_true. rewrite !all_parts_in.
  split; intros H l Hl.
  - eapply Permutation_in; [exact Pp|].
    apply H. eapply Permutation_in; [symmetry; exact Pe | exact Hl].
  - eapply Permutation_in; [symmetry; exact Pp|].
    apply H. eapply Permutation_in; [exact Pe | exact Hl].
Qed.

(** The builtin [all] refuses four positional arguments. *)
Lemma builtin_all_four (a b c d : pyval) :
  builtin_all [a; b; c; d] = Raise TypeError.
Proof. reflexivity. Qed.

(** C2.  Without a ["missing"] field the metric never returns a verdict:
    when the four fields are there and the four comparisons return, the
    call of [all] with four arguments raises [TypeError]. *)
Theorem metric_fields_never_returns (example : Example)
  (prediction : Prediction) :
  Example_contains "missing" example = false ->
  forall b, is_text_complete_and_correct answer_exact_match example prediction <> Ok b.
Proof.
  intros Hin b. unfold is_text_complete_and_correct. rewrite Hin.
  repeat match goal with
  | |- context [Py.bind ?r _] => destruct r; simpl; try discriminate
  end.
Qed.

End Metric.

Lemma metric_missing_iff_witness :
  is_text_complete_and_correct same_string example_missing prediction_missing
  = Ok true.
Proof.
  apply (proj1 (metric_missing_iff same_string example_missing
                  prediction_missing eq_refl)).
  exists "evidence,analysis",
    "The following components are missing: analysis, evidence, tieback",
    " analysis, evidence, tieback".
  repeat split; try reflexivity.
  intros x Hx. simpl in Hx |- *. intuition.
Defined.

(** All four fields match and the metric raises. *)
Lemma metric_fields_raise :
  is_text_complete_and_correct same_string example_fields prediction_fields
  = Raise TypeError.
Proof. reflexivity. Qed.

Lemma metric_fields_never_returns_witness :
  Example_contains "missing" example_fields = false /\
  is_text_complete_and_correct same_string example_fields prediction_fields
  <> Ok true.
Proof.
  split; [reflexivity|].
  apply (metric_fields_never_returns same_string example_fields
           prediction_fields eq_refl true).
Defined.

End MetricFacts.

(** ** [forward] *)

Module ForwardFacts.

Import Extractor Vocabulary Samples PyFacts.

Section Forward.

Context {LM : Type}.

Implicit Types (self : ArgumentativeExtractor LM) (w : World LM).

(** [forward], step by step. *)
Lemma forward_unfold self (text : string) w :
  forward self text w =
  match run (completeness_classifier self) text (lm w) with
  | (Raise e, st) => (Raise e, mkWorld st (calls w ++ [Classify text]))
  | (Ok cr, st) =>
      match missing_components cr with
      | None =>
          (Raise (AttributeError "lower"),
           mkWorld st (calls w ++ [Classify text]))
      | Some mc =>
          if contains "all_present" (lower mc)
          then
            let (r, st') := run (structure_extractor self) text st in
            (r, mkWorld st' (calls w ++ [Classify text; Extract text]))
          else (Ok (diagnostic mc), mkWorld st (calls w ++ [Classify text]))
      end
  end.
Proof.
  unfold forward, bindM, call, lift, ret.
  destruct (run (completeness_classifier self) text (lm w)) as [[cr|e] st];
    [|reflexivity].
  destruct (missing_components cr) as [mc|]; simpl; [|reflexivity].
  destruct (contains "all_present" (lower mc)); [|reflexivity].
  simpl. destruct (run (structure_extractor self) text st) as [[p|e] st'];
    now rewrite <- app_assoc.
Qed.


(** C8.  The test is a search without regard to case: the extractor is
    called, and its result returned, exactly when some part of the
    classifier's [missing_components] is ["all_present"] once put in lower
    case, wherever it stands and whatever comes with it. *)
Theorem forward_all_present_substring self (text : string) w
  (cr : Completeness) (st : LM) (mc : string) :
  run (completeness_classifier self) text (lm w) = (Ok cr, st) ->
  missing_components cr = Some mc ->
  ((exists pre mid post,
      mc = (pre ++ mid ++ post)%string /\ lower mid = "all_present") <->
   (calls (snd (forward self text w)) =
      calls w ++ [Classify text; Extract text] /\
    fst (forward self text w) =
      fst (run (structure_extractor self) text st))).
Proof.
  intros Hrun Hmc. rewrite <- contains_lower_iff, forward_unfold, Hrun, Hmc.
  destruct (contains "all_present" (lower mc)).
  - destruct (run (structure_extractor self) text st) as [r st']. simpl.
    tauto.
  - simpl. split; [discriminate|]. intros [H _]. exfalso.
    apply app_inv_head in H. discriminate.
Qed.


(** The message is a fixed sentence up to its colon, then the parts. *)
Lemma message_of_tail (parts : list string) :
  message_of parts =
  ("The provided text is incomplete. The following components are missing"
   ++ String ":" (" " ++ join ", " parts ++ "."))%string.
Proof. reflexivity. Qed.




End Forward.

Lemma forward_all_present_substring_witness :
  calls (snd (forward (fixed_extractor (Some "All_Present, evidence")
                         (Ok four_fields)) "text" w0))
  = [Classify "text"; Extract "text"] /\
  fst (forward (fixed_extractor (Some "All_Present, evidence")
                  (Ok four_fields)) "text" w0)
  = Ok four_fields.
Proof.
  apply (proj1 (forward_all_present_substring
                  (fixed_extractor (Some "All_Present, evidence")
                     (Ok four_fields))
                  "text" w0 (mkCompleteness (Some "All_Present, evidence"))
                  tt "All_Present, evidence" eq_refl eq_refl)).
  exists "", "All_Present", ", evidence". split; reflexivity.
Defined.





(** The single label ["evidence"], sent through [forward] and read back by
    the metric, is not found. *)
Lemma forward_then_metric_single_label :
  fst (forward (fixed_extractor (Some "evidence") (Ok four_fields))
         "Dogs are the best pets." w0)
  = Ok (diagnostic "evidence") /\
  is_text_complete_and_correct same_string
    (mkExample [("text", PStr "Dogs are the best pets.");
                ("missing", PStr "evidence")])
    (diagnostic "evidence")
  = Ok false.
Proof. split; reflexivity. Qed.

End ForwardFacts.

(** ** [load_trainset] *)

Module LoaderFacts.

Import Extractor Vocabulary Samples.

Lemma dict_remove_absent (k : string) (d : dict) :
  dict_has k d = false -> dict_remove k d = d.
Proof.
  unfold dict_has. induction d as [|[k' v] d IH]; simpl; [reflexivity|].
  destruct (String.eqb k k'); [discriminate|].
  intros H. now rewrite IH.
Qed.

(** A record without the keys [self] and [base] becomes the example that
    has its items for fields. *)
Lemma Example_of_plain (d : dict) :
  plain_record d = true -> Example_of (PDict d) = Ok (mkExample d).
Proof.
  unfold plain_record. intros H.
  apply andb_true_iff in H as [Hs Hb].
  apply negb_true_iff in Hs, Hb.
  simpl. rewrite Hs, (dict_remove_absent _ _ Hb).
  unfold dict_has in Hb. now destruct (dict_get "base" d).
Qed.

Lemma Example_of_accepted (v : pyval) :
  is_ok (Example_of v) = accepted_item v.
Proof.
  destruct v as [| | | | |d]; try reflexivity.
  simpl. destruct (dict_has "self" d); [reflexivity|].
  destruct (dict_get "base" d) as [[| | | | |[|item items]]|]; reflexivity.
Qed.

Lemma Example_of_raise (v : pyval) (e : exn) :
  Example_of v = Raise e -> e = TypeError.
Proof.
  destruct v as [| | | | |d]; simpl; try (intros H; now injection H as <-).
  destruct (dict_has "self" d); [intros H; now injection H as <-|].
  destruct (dict_get "base" d) as [[| | | | |[|item items]]|]; discriminate.
Qed.

(** The loop appends one example for each record, in order. *)
Lemma load_samples_records (records : list dict) (trainset : list Example) :
  Forall (fun r => plain_record r = true) records ->
  load_samples (map PDict records) trainset =
  Ok (trainset ++ map mkExample records).
Proof.
  intros H. revert trainset.
  induction H as [|r records Hr _ IH]; intros trainset.
  - simpl. now rewrite app_nil_r.
  - cbn [map load_samples]. rewrite (Example_of_plain r Hr). simpl.
    rewrite IH, <- app_assoc. reflexivity.
Qed.

(** The loop succeeds exactly when every item is accepted by the
    constructor, and then gives one example for each item. *)
Lemma load_samples_ok_iff (items : list pyval) :
  forall trainset,
    is_ok (load_samples items trainset) = forallb accepted_item items.
Proof.
  induction items as [|v items IH]; intros trainset; [reflexivity|].
  cbn [load_samples forallb]. rewrite <- Example_of_accepted.
  destruct (Example_of v) as [example|e]; simpl; [apply IH | reflexivity].
Qed.

Lemma load_samples_length (items : list pyval) :
  forall trainset result,
    load_samples items trainset = Ok result ->
    length result = length trainset + length items.
Proof.
  induction items as [|v items IH]; intros trainset result H.
  - simpl in H. injection H as <-. simpl. lia.
  - cbn [load_samples] in H.
    destruct (Example_of v) as [example|e]; [|discriminate].
    simpl in H. apply IH in H. rewrite H, length_app. simpl. lia.
Qed.

Lemma load_samples_raise (items : list pyval) :
  forall trainset e,
    load_samples items trainset = Raise e -> e = TypeError.
Proof.
  induction items as [|v items IH]; intros trainset e H; [discriminate|].
  cbn [load_samples] in H.
  destruct (Example_of v) as [example|e'] eqn:Hv; simpl in H.
  - eapply IH, H.
  - injection H as <-. eapply Example_of_raise, Hv.
Qed.

Section Loader.

Variable open_read : string -> result string.
Variable json_load : string -> result pyval.

(** Once the file is read and parsed, only [data["samples"]] matters. *)
Lemma load_trainset_unfold (path f : string) (data : pyval) :
  open_read path = Ok f ->
  json_load f = Ok data ->
  load_trainset open_read json_load path =
  (samples <- py_getitem data "samples" ;;
   items <- py_iter samples ;;
   load_samples items [])%py.
Proof.
  intros Hf Hd. unfold load_trainset.
  rewrite Hf. simpl. rewrite Hd. reflexivity.
Qed.

(** C10, as amended.  When the ["samples"] of the parsed file is an array of
    records none of which has a key named [self] or [base], [load_trainset]
    returns one example for each record, in the order of the array, and the
    fields of each example are the items of its record. *)
Theorem load_trainset_records (path f : string) (data : pyval)
  (records : list dict) :
  open_read path = Ok f ->
  json_load f = Ok data ->
  py_getitem data "samples" = Ok (PList (map PDict records)) ->
  Forall (fun r => plain_record r = true) records ->
  exists trainset,
    load_trainset open_read json_load path = Ok trainset /\
    trainset = map mkExample records /\
    length trainset = length records /\
    forall i, option_map store (nth_error trainset i) = nth_error records i.
Proof.
  intros Hf Hd Hs Hplain. exists (map mkExample records).
  rewrite (load_trainset_unfold path f data Hf Hd), Hs. simpl.
  rewrite (load_samples_records records [] Hplain). repeat split.
  - apply length_map.
  - intros i. rewrite nth_error_map. now destruct (nth_error records i).
Qed.

(** C7, as amended.  Once the file is read and parsed, [load_trainset]
    succeeds exactly when the parsed value is an object with a ["samples"]
    key whose value is iterable and yields only objects that have no key
    named [self]; the training set then has one example for each item (the
    example of the item's own fields when the item has no key [base]
    either), and two files that agree on ["samples"] give the same result
    whatever their other keys. *)
Theorem load_trainset_succeeds_iff (path f : string) (data : pyval) :
  open_read path = Ok f ->
  json_load f = Ok data ->
  ((exists trainset, load_trainset open_read json_load path = Ok trainset) <->
   (exists samples items,
      py_getitem data "samples" = Ok samples /\
      py_iter samples = Ok items /\
      forallb accepted_item items = true)) /\
  (forall samples items trainset,
     py_getitem data "samples" = Ok samples ->
     py_iter samples = Ok items ->
     load_trainset open_read json_load path = Ok trainset ->
     length trainset = length items) /\
  (forall samples records,
     py_getitem data "samples" = Ok samples ->
     py_iter samples = Ok (map PDict records) ->
     Forall (fun r => plain_record r = true) records ->
     load_trainset open_read json_load path = Ok (map mkExample records)) /\
  (forall path' f' data',
     open_read path' = Ok f' ->
     json_load f' = Ok data' ->
     py_getitem data' "samples" = py_getitem data "samples" ->
     load_trainset open_read json_load path' =
     load_trainset open_read json_load path).
Proof.
  intros Hf Hd.
  rewrite (load_trainset_unfold path f data Hf Hd).
  split; [split|split; [|split]].
  - intros [trainset H].
    destruct (py_getitem data "samples") as [samples|e] eqn:Hs;
      [|discriminate].
    simpl in H.
    destruct (py_iter samples) as [items|e] eqn:Hi; [|discriminate].
    simpl in H. exists samples, items. repeat split; try assumption.
    rewrite <- (load_samples_ok_iff items []), H. reflexivity.
  - intros [samples [items [Hs [Hi Hall]]]]. rewrite Hs. simpl.
    rewrite Hi. simpl.
    rewrite <- (load_samples_ok_iff items []) in Hall.
    destruct (load_samples items []) as [trainset|e]; [|discriminate].
    now exists trainset.
  - intros samples items trainset Hs Hi. rewrite Hs. simpl. rewrite Hi. simpl.
    intros H. now apply load_samples_length in H.
  - intros samples records Hs Hi Hplain. rewrite Hs. simpl. rewrite Hi. simpl.
    now rewrite load_samples_records.
  - intros path' f' data' Hf' Hd' Hs.
    rewrite (load_trainset_unfold path' f' data' Hf' Hd'). now rewrite Hs.
Qed.

End Loader.

Lemma load_trainset_records_witness :
  exists trainset,
    load_trainset (one_file "train.json" train_json)
      (parses_to train_json train_data) "train.json" = Ok trainset /\
    trainset = map mkExample train_records.
Proof.
  destruct (load_trainset_records (one_file "train.json" train_json)
              (parses_to train_json train_data) "train.json" train_json
              train_data train_records eq_refl eq_refl eq_refl)
    as [trainset [H1 [H2 _]]].
  - repeat constructor.
  - exists trainset. split; assumption.
Defined.

(** C10, as first stated, fails on a record with a key [base]: the key is
    not among the fields of its example; and on a record with a key [self]
    nothing is returned. *)
Lemma load_trainset_records_counterexample :
  py_getitem
    (PDict [("samples",
             PList (map PDict [[("base", PStr "x"); ("text", PStr "t")]]))])
    "samples"
  = Ok (PList (map PDict [[("base", PStr "x"); ("text", PStr "t")]])) /\
  load_trainset (one_file "train.json" train_json)
    (parses_to train_json
       (PDict [("samples",
                PList (map PDict [[("base", PStr "x"); ("text", PStr "t")]]))]))
    "train.json"
  = Ok [mkExample [("text", PStr "t")]] /\
  [mkExample [("text", PStr "t")]] <>
  map mkExample [[("base", PStr "x"); ("text", PStr "t")]] /\
  load_trainset (one_file "train.json" train_json)
    (parses_to train_json
       (PDict [("samples",
                PList (map PDict [[("self", PStr "x"); ("text", PStr "t")]]))]))
    "train.json"
  = Raise TypeError.
Proof. repeat split; discriminate. Defined.

Lemma load_trainset_succeeds_iff_witness :
  exists trainset,
    load_trainset (one_file "train.json" train_json)
      (parses_to train_json train_data) "train.json" = Ok trainset.
Proof.
  apply (proj1 (load_trainset_succeeds_iff
                  (one_file "train.json" train_json)
                  (parses_to train_json train_data) "train.json" train_json
                  train_data eq_refl eq_refl)).
  exists (PList (map PDict train_records)), (map PDict train_records).
  repeat split.
Defined.

(** C7, as first stated, fails on an array that holds something else than
    objects, and on an object with a key [self]: the key ["samples"] is
    there, its value is iterable, and [load_trainset] raises. *)
Lemma load_trainset_iterable_counterexample :
  py_getitem (PDict [("samples", PList [PInt 1])]) "samples"
  = Ok (PList [PInt 1]) /\
  py_iter (PList [PInt 1]) = Ok [PInt 1] /\
  load_trainset (one_file "train.json" train_json)
    (parses_to train_json (PDict [("samples", PList [PInt 1])]))
    "train.json"
  = Raise TypeError /\
  py_iter (PList [PDict [("self", PStr "x")]])
  = Ok [PDict [("self", PStr "x")]] /\
  load_trainset (one_file "train.json" train_json)
    (parses_to train_json
       (PDict [("samples", PList [PDict [("self", PStr "x")]])]))
    "train.json"
  = Raise TypeError.
Proof. repeat split. Defined.

End LoaderFacts.

(** ** Failures *)

Module FailureFacts.

Import Extractor Vocabulary Samples.

Section Failures.

Context {LM : Type}.
Variable Predict_TextCompleteness : Predict LM Completeness.
Variable Predict_ArgumentativeStructure : Predict LM Prediction.
Variable answer_exact_match : option string -> pyval -> result bool.
Variable open_read : string -> result string.
Variable json_load : string -> result pyval.
Variable optimizer_compile :
  Optimizer -> ArgumentativeExtractor LM -> list Example ->
  LM -> result (ArgumentativeExtractor LM) * LM.

Lemma metric_fields_first_raise (example : Example) (prediction : Prediction)
  (e : exn) :
  Example_contains "missing" example = false ->
  first_raise
    [field_match answer_exact_match example "topic_sentence" (topic_sentence prediction);
     field_match answer_exact_match example "evidence" (evidence prediction);
     field_match answer_exact_match example "analysis" (analysis prediction);
     field_match answer_exact_match example "tieback_or_transition"
       (tieback_or_transition prediction)] = Some e ->
  is_text_complete_and_correct answer_exact_match example prediction = Raise e.
Proof.
  intros Hin. unfold is_text_complete_and_correct, field_match.
  rewrite Hin.
  destruct (Example_getitem example "topic_sentence") as [e1|x]; simpl;
    [|congruence].
  destruct (answer_exact_match (topic_sentence prediction) e1); simpl;
    [|congruence].
  destruct (Example_getitem example "evidence") as [e2|x]; simpl;
    [|congruence].
  destruct (answer_exact_match (evidence prediction) e2); simpl;
    [|congruence].
  destruct (Example_getitem example "analysis") as [e3|x]; simpl;
    [|congruence].
  destruct (answer_exact_match (analysis prediction) e3); simpl;
    [|congruence].
  destruct (Example_getitem example "tieback_or_transition") as [e4|x]; simpl;
    [|congruence].
  destruct (answer_exact_match (tieback_or_transition prediction) e4); simpl;
    [discriminate | congruence].
Qed.

(** [main], step by step. *)
Lemma main_unfold (path : string) (optimizer_type : pyval) (w : World LM) :
  main Predict_TextCompleteness Predict_ArgumentativeStructure
    answer_exact_match open_read json_load optimizer_compile
    path optimizer_type w =
  match load_trainset open_read json_load path with
  | Raise e => (Raise e, w)
  | Ok trainset =>
      match optimizer_compile (optimizer_of answer_exact_match optimizer_type)
              (init Predict_TextCompleteness Predict_ArgumentativeStructure)
              trainset (lm w) with
      | (Raise e, st) => (Raise e, mkWorld st (calls w))
      | (Ok compiled, st) =>
          match forward compiled unseen_text_complete (mkWorld st (calls w))
          with
          | (Raise e, w1) => (Raise e, w1)
          | (Ok _, w1) =>
              match forward compiled unseen_text_incomplete w1 with
              | (Raise e, w2) => (Raise e, w2)
              | (Ok _, w2) =>
                  match print_full_prompt compiled with
                  | Raise e => (Raise e, w2)
                  | Ok _ => (Ok compiled, w2)
                  end
              end
          end
      end
  end.
Proof.
  unfold main, bindM, lift, ret, optimizer_of.
  destruct (load_trainset open_read json_load path) as [trainset|e];
    [|reflexivity].
  destruct (optimizer_compile _ _ trainset (lm w)) as [[compiled|e] st];
    [|reflexivity].
  destruct (forward compiled unseen_text_complete _) as [[p1|e] w1];
    [|reflexivity].
  destruct (forward compiled unseen_text_incomplete w1) as [[p2|e] w2];
    [|reflexivity].
  destruct (print_full_prompt compiled); reflexivity.
Qed.

(** C5.  No function of the script handles an exception: whatever a step
    raises is what the function raises.  [load_trainset]: a failure to read
    the file, a failure of the JSON parser, a missing ["samples"].  The
    metric: a missing field of the example, a failure of the comparison.
    [forward]: a failure of either predictor.  [main]: a failure of
    [load_trainset], of the optimizer, of either run of the compiled module,
    of the final printing. *)
Theorem failures_propagate :
  (forall path e,
     open_read path = Raise e ->
     load_trainset open_read json_load path = Raise e) /\
  (forall path f e,
     open_read path = Ok f -> json_load f = Raise e ->
     load_trainset open_read json_load path = Raise e) /\
  (forall path f d,
     open_read path = Ok f -> json_load f = Ok (PDict d) ->
     dict_get "samples" d = None ->
     load_trainset open_read json_load path = Raise (KeyError "samples")) /\
  (forall example field predicted,
     dict_get field (store example) = None ->
     field_match answer_exact_match example field predicted = Raise (KeyError field)) /\
  (forall example field predicted expected e,
     Example_getitem example field = Ok expected ->
     answer_exact_match predicted expected = Raise e ->
     field_match answer_exact_match example field predicted = Raise e) /\
  (forall example prediction e,
     Example_contains "missing" example = false ->
     first_raise
       [field_match answer_exact_match example "topic_sentence" (topic_sentence prediction);
        field_match answer_exact_match example "evidence" (evidence prediction);
        field_match answer_exact_match example "analysis" (analysis prediction);
        field_match answer_exact_match example "tieback_or_transition"
          (tieback_or_transition prediction)] = Some e ->
     is_text_complete_and_correct answer_exact_match example prediction
     = Raise e) /\
  (forall self text (w : World LM) e st,
     run (completeness_classifier self) text (lm w) = (Raise e, st) ->
     fst (forward self text w) = Raise e) /\
  (forall self text (w : World LM) cr st mc e st',
     run (completeness_classifier self) text (lm w) = (Ok cr, st) ->
     missing_components cr = Some mc ->
     contains "all_present" (lower mc) = true ->
     run (structure_extractor self) text st = (Raise e, st') ->
     fst (forward self text w) = Raise e) /\
  (forall path optimizer_type (w : World LM) e,
     load_trainset open_read json_load path = Raise e ->
     fst (main Predict_TextCompleteness Predict_ArgumentativeStructure
    answer_exact_match open_read json_load optimizer_compile
    path optimizer_type w) = Raise e) /\
  (forall path optimizer_type (w : World LM) trainset e st,
     load_trainset open_read json_load path = Ok trainset ->
     optimizer_compile (optimizer_of answer_exact_match optimizer_type)
       (init Predict_TextCompleteness Predict_ArgumentativeStructure)
       trainset (lm w) = (Raise e, st) ->
     fst (main Predict_TextCompleteness Predict_ArgumentativeStructure
    answer_exact_match open_read json_load optimizer_compile
    path optimizer_type w) = Raise e) /\
  (forall path optimizer_type (w : World LM) trainset compiled st e,
     load_trainset open_read json_load path = Ok trainset ->
     optimizer_compile (optimizer_of answer_exact_match optimizer_type)
       (init Predict_TextCompleteness Predict_ArgumentativeStructure)
       trainset (lm w) = (Ok compiled, st) ->
     (fst (forward compiled unseen_text_complete (mkWorld st (calls w)))
      = Raise e \/
      (is_ok (fst (forward compiled unseen_text_complete
                     (mkWorld st (calls w)))) = true /\
       fst (forward compiled unseen_text_incomplete
              (snd (forward compiled unseen_text_complete
                      (mkWorld st (calls w))))) = Raise e) \/
      (is_ok (fst (forward compiled unseen_text_complete
                     (mkWorld st (calls w)))) = true /\
       is_ok (fst (forward compiled unseen_text_incomplete
                     (snd (forward compiled unseen_text_complete
                             (mkWorld st (calls w)))))) = true /\
       print_full_prompt compiled = Raise e)) ->
     fst (main Predict_TextCompleteness Predict_ArgumentativeStructure
    answer_exact_match open_read json_load optimizer_compile
    path optimizer_type w) = Raise e).
Proof.
  repeat apply conj.
  - intros path e H. unfold load_trainset. now rewrite H.
  - intros path f e Hf Hd. unfold load_trainset.
    rewrite Hf. simpl. now rewrite Hd.
  - intros path f d Hf Hd Hs. unfold load_trainset.
    rewrite Hf. simpl. rewrite Hd. simpl. now rewrite Hs.
  - intros example field predicted H.
    unfold field_match, Example_getitem. now rewrite H.
  - intros example field predicted expected e H1 H2.
    unfold field_match. rewrite H1. exact H2.
  - intros example prediction e. apply metric_fields_first_raise.
  - intros self text w e st H.
    rewrite ForwardFacts.forward_unfold, H. reflexivity.
  - intros self text w cr st mc e st' H1 H2 H3 H4.
    rewrite ForwardFacts.forward_unfold, H1, H2, H3, H4. reflexivity.
  - intros path optimizer_type w e H. rewrite main_unfold, H. reflexivity.
  - intros path optimizer_type w trainset e st H1 H2.
    rewrite main_unfold, H1, H2. reflexivity.
  - intros path optimizer_type w trainset compiled st e H1 H2 H.
    rewrite main_unfold, H1, H2.
    destruct (forward compiled unseen_text_complete _) as [[p1|e1] w1];
      simpl in H.
    + destruct (forward compiled unseen_text_incomplete w1) as [[p2|e2] w2];
        simpl in H.
      * destruct H as [H | [[_ H] | [_ [_ H]]]]; try discriminate.
        now rewrite H.
      * simpl. intuition (try discriminate; congruence).
    + simpl. intuition (try discriminate; congruence).
Qed.

End Failures.

Lemma failures_propagate_witness :
  load_trainset (one_file "train.json" "not json") malformed "train.json"
  = Raise (Foreign "JSONDecodeError" "Expecting value") /\
  fst (main (fixed_predict (Ok (mkCompleteness None)))
         (fixed_predict (Ok four_fields)) same_string
         (one_file "train.json" "not json") malformed
         keep_student "train.json" (PStr "MIPROv2") w0)
  = Raise (Foreign "JSONDecodeError" "Expecting value") /\
  is_text_complete_and_correct same_string
    (mkExample [("text", PStr "T. E. A. B.")]) prediction_fields
  = Raise (KeyError "topic_sentence") /\
  fst (forward
         (mkExtractor
            (fixed_predict (Raise (Foreign "APIError" "rate limit")))
            (fixed_predict (Ok four_fields)))
         "Dogs are the best pets." w0)
  = Raise (Foreign "APIError" "rate limit").
Proof.
  destruct (failures_propagate
              (fixed_predict (Ok (mkCompleteness None)))
              (fixed_predict (Ok four_fields)) same_string
              (one_file "train.json" "not json") malformed keep_student)
    as [_ [Hjson [_ [_ [_ [Hmetric [Hforward [_ [Hmain _]]]]]]]]].
  split; [|split; [|split]].
  - apply (Hjson "train.json" "not json"); reflexivity.
  - apply Hmain. apply (Hjson "train.json" "not json"); reflexivity.
  - apply Hmetric; reflexivity.
  - apply (Hforward _ _ w0 _ tt). reflexivity.
Defined.

End FailureFacts.

(** ** The command line *)

Module CommandLineFacts.

Import Argparse Extractor Vocabulary.

Lemma parser_declared :
  parser = {| positionals := ["json_file"];
              long_options := [optimizer_option] |}.
Proof. reflexivity. Qed.

Lemma assoc_actions_ok (k : string) (a : Action) :
  assoc k (option_string_actions parser) = Some a ->
  a = Help \/ a = Store optimizer_option.
Proof.
  simpl.
  repeat match goal with
  | |- context [String.eqb ?x ?y] => destruct (String.eqb x y)
  end; intros H; inversion H; auto.
Qed.

Lemma split_eq_spec (s o e : string) :
  split_eq s = Some (o, e) -> s = (o ++ String "=" e)%string.
Proof.
  revert o. induction s as [|c s IH]; intros o; simpl; [discriminate|].
  destruct (Ascii.eqb c "=") eqn:Hc.
  - intros H. injection H as <- <-. apply Ascii.eqb_eq in Hc. now subst.
  - destruct (split_eq s) as [[a b]|]; [|discriminate].
    intros H. injection H as <- <-. simpl. now rewrite (IH a eq_refl).
Qed.

(** An abbreviated option is [-h], [--help] or [--optimizer], and its
    explicit argument is what follows the [=] of the argument string. *)
Lemma option_tuples_ok (arg : string) a o e :
  In (a, o, e) (get_option_tuples parser arg) ->
  a = Help \/
  (a = Store optimizer_option /\
   forall x, e = Some x -> exists pre, arg = (pre ++ String "=" x)%string).
Proof.
  unfold get_option_tuples.
  destruct arg as [|c0 [|c1 rest]]; [intros [] | |].
  - destruct c0 as [[] [] [] [] [] [] [] []]; intros [].
  - destruct c0 as [[] [] [] [] [] [] [] []]; try (intros []).
    destruct c1 as [[] [] [] [] [] [] [] []];
      try (simpl; intros H;
           repeat (destruct H as [H|H];
                   [injection H as <- <- <-; now left|]);
           destruct H).
    set (arg := String "-" (String "-" rest)).
    intros H.
    assert (Hex : forall x,
              match split_eq arg with
              | Some (_, e0) => Some e0
              | None => None
              end = Some x ->
              exists pre, arg = (pre ++ String "=" x)%string).
    { intros x Hx. destruct (split_eq arg) as [[o0 e0]|] eqn:Hs;
        [|discriminate].
      injection Hx as ->. exists o0. now apply split_eq_spec. }
    destruct (split_eq arg) as [[o0 e0]|];
      apply in_map_iff in H as [[k act] [Heq Hin]];
      apply filter_In in Hin as [Hin _];
      injection Heq as <- <- <-;
      simpl in Hin;
      destruct Hin as [Hin|[Hin|[Hin|[]]]]; injection Hin as <- <-;
      auto.
Qed.

Lemma parse_optional_plain (argv : list string) (arg : string) (t : Tok) :
  In arg argv -> arg <> "--" ->
  parse_optional parser arg = Ok t -> plain_tok argv t.
Proof.
  intros Hin Hd. unfold parse_optional.
  destruct arg as [|c rest]; [intros H; inversion H; now split|].
  destruct (negb (Ascii.eqb c "-")); [intros H; inversion H; now split|].
  destruct (assoc (String c rest) (option_string_actions parser))
    as [a|] eqn:Ha.
  { intros H; inversion H; subst. simpl.
    destruct (assoc_actions_ok _ _ Ha) as [-> | ->]; [now left|].
    right. split; [reflexivity | discriminate]. }
  destruct (Nat.eqb _ 1); [intros H; inversion H; now split|].
  assert (Htuples :
            match get_option_tuples parser (String c rest) with
            | [] =>
                if negative_number (String c rest)
                then Ok (TA (String c rest))
                else if contains " " (String c rest)
                     then Ok (TA (String c rest))
                     else Ok (TUnknown (String c rest))
            | [(a, o, e)] => Ok (TO a o e)
            | _ :: _ :: _ => error
            end = Ok t -> plain_tok argv t).
  { destruct (get_option_tuples parser (String c rest))
      as [|[[a1 o1] e1] [|x l]] eqn:Ht.
    - destruct (negative_number _); [|destruct (contains _ _)];
        intros H; inversion H; simpl; auto.
    - intros H; inversion H; subst. simpl.
      destruct (option_tuples_ok (String c rest) a1 o1 e1) as [-> | [-> Hx]];
        [rewrite Ht; now left | now left |].
      right. split; [reflexivity|]. intros He.
      destruct (Hx _ He) as [pre Hpre]. now exists (String c rest), pre.
    - discriminate. }
  destruct (split_eq (String c rest)) as [[o e]|] eqn:Hs; [|exact Htuples].
  destruct (assoc o (option_string_actions parser)) as [a|] eqn:Ho;
    [|exact Htuples].
  intros H; inversion H; subst. simpl.
  destruct (assoc_actions_ok _ _ Ho) as [-> | ->]; [now left|].
  right. split; [reflexivity|]. intros He. injection He as ->.
  exists (String c rest), o. split; [assumption|]. now apply split_eq_spec.
Qed.

Lemma plain_tok_incl (argv argv' : list string) (t : Tok) :
  incl argv argv' -> plain_tok argv t -> plain_tok argv' t.
Proof.
  intros Hi. destruct t as [s| |a opt e|s]; simpl; auto.
  - intros [H1 H2]. auto.
  - intros [H | [H1 H2]]; [now left|]. right. split; [assumption|].
    intros He. destruct (H2 He) as [arg [pre [Ha Hp]]].
    exists arg, pre. auto.
Qed.

Lemma wf_toks_incl (argv argv' : list string) (toks : list Tok) :
  incl argv argv' -> wf_toks argv toks -> wf_toks argv' toks.
Proof.
  intros Hi H. induction H as [|rest Hr|t toks Ht _ IH].
  - constructor.
  - constructor. intros x Hx. auto.
  - constructor; [eapply plain_tok_incl; eassumption | exact IH].
Qed.

Lemma classify_wf (argv : list string) :
  forall toks, classify parser argv = Ok toks -> wf_toks argv toks.
Proof.
  induction argv as [|arg rest IH]; intros toks H; simpl in H.
  - inversion H. constructor.
  - destruct (String.eqb arg "--") eqn:Hd.
    + inversion H; subst. constructor. intros x Hx. now right.
    + destruct (parse_optional parser arg) as [t|e] eqn:Ht; [|discriminate].
      simpl in H.
      destruct (classify parser rest) as [ts|e]; [|discriminate].
      inversion H; subst. apply String.eqb_neq in Hd. constructor.
      * eapply parse_optional_plain; [now left | exact Hd | exact Ht].
      * eapply wf_toks_incl; [|apply IH; reflexivity].
        intros x Hx. now right.
Qed.

Lemma take_help_exits {A : Type} (opt : string) (explicit : option string)
  (a : A) : take_help opt explicit <> Ok a.
Proof.
  unfold take_help. destruct explicit as [e|]; [|discriminate].
  destruct (_ && _); discriminate.
Qed.

Lemma get_values_argument (s : string) :
  s <> "--" -> get_values None [s] = Ok (PStr s).
Proof.
  intros H. apply String.eqb_neq in H. unfold get_values. simpl.
  now rewrite H.
Qed.

Lemma get_values_dash_last (s : string) :
  s <> "--" -> get_values None [s; "--"] = Ok (PStr s).
Proof.
  intros H. apply String.eqb_neq in H. unfold get_values. simpl.
  now rewrite H.
Qed.

Lemma get_values_dash_first (s : string) :
  get_values None ["--"; s] = Ok (PStr s).
Proof. reflexivity. Qed.

(** The value the option takes from one string: the empty list for [--],
    and else the string, which is one of the two names. *)
Lemma get_values_optimizer (arg : string) (v : pyval) :
  get_values (choices optimizer_option) [arg] = Ok v ->
  (arg = "--" /\ v = PList []) \/ (v = PStr arg /\ valid_optimizer arg).
Proof.
  unfold get_values. simpl.
  destruct (String.eqb arg "--") eqn:Hd; simpl.
  - intros H. injection H as <-. apply String.eqb_eq in Hd. now left.
  - unfold list_contains. simpl.
    destruct (String.eqb arg "BootstrapFewShot") eqn:H1; simpl.
    + intros H. injection H as <-. apply String.eqb_eq in H1.
      right. split; [reflexivity | now left].
    + destruct (String.eqb arg "MIPROv2") eqn:H2; simpl; [|discriminate].
      intros H. injection H as <-. apply String.eqb_eq in H2.
      right. split; [reflexivity | now right].
Qed.

Lemma ns_ok_set_optimizer (argv pos : list string) (ns : Namespace)
  (value : pyval) :
  valid_value argv value -> ns_ok argv pos ns ->
  ns_ok argv pos (setattr ns "optimizer" value).
Proof.
  intros Hv [o [_ [[-> ->] | [-> [f [Hf ->]]]]]]; exists value; split; auto.
  right. split; [reflexivity|]. now exists f.
Qed.

Lemma ns_ok_set_json_file (argv : list string) (ns : Namespace)
  (dest : string) (pos' : list string) (s : string) :
  In s argv -> ns_ok argv (dest :: pos') ns ->
  pos' = [] /\ ns_ok argv [] (setattr ns dest (PStr s)).
Proof.
  intros Hs [o [Ho [[Hp ->] | [Hp _]]]]; [|discriminate].
  injection Hp as -> ->. split; [reflexivity|].
  exists o. split; [assumption|].
  right. split; [reflexivity|]. now exists s.
Qed.

Lemma consume_extras (l : list string) (ns : Namespace) :
  forall extras,
    consume (map TA l) [] ns extras = Ok ([], ns, extras ++ l).
Proof.
  induction l as [|s l IH]; intros extras; simpl.
  - now rewrite app_nil_r.
  - rewrite IH, <- app_assoc. reflexivity.
Qed.

Lemma consume_dash_nil (rest : list Tok) (ns : Namespace)
  (extras : list string) :
  consume (TDash :: rest) [] ns extras =
  consume rest [] ns (extras ++ ["--"]).
Proof. reflexivity. Qed.

Lemma consume_dash_arg (s dest : string) (rest : list Tok)
  (pos : list string) (ns : Namespace) (extras : list string) :
  consume (TDash :: TA s :: rest) (dest :: pos) ns extras =
  consume rest pos (setattr ns dest (PStr s)) extras.
Proof. reflexivity. Qed.

Lemma consume_arg_dash (s dest : string) (rest : list Tok)
  (pos : list string) (ns : Namespace) (extras : list string) :
  s <> "--" ->
  consume (TA s :: TDash :: rest) (dest :: pos) ns extras =
  consume rest pos (setattr ns dest (PStr s)) extras.
Proof.
  intros H. cbn [consume]. now rewrite (get_values_dash_last s H).
Qed.

Lemma consume_arg (s dest : string) (rest : list Tok)
  (pos : list string) (ns : Namespace) (extras : list string) :
  s <> "--" ->
  (forall rest', rest <> TDash :: rest') ->
  consume (TA s :: rest) (dest :: pos) ns extras =
  consume rest pos (setattr ns dest (PStr s)) extras.
Proof.
  intros H Hrest.
  destruct rest as [|[s1| |a1 o1 e1|s1] rest']; cbn [consume];
    rewrite ?(get_values_argument s H); try reflexivity.
  now destruct (Hrest rest').
Qed.

Lemma consume_arg_extra (s : string) (rest : list Tok) (ns : Namespace)
  (extras : list string) :
  consume (TA s :: rest) [] ns extras = consume rest [] ns (extras ++ [s]).
Proof. reflexivity. Qed.

Lemma consume_store_explicit (o : LongOption) (opt arg : string)
  (rest : list Tok) (pos : list string) (ns : Namespace)
  (extras : list string) :
  consume (TO (Store o) opt (Some arg) :: rest) pos ns extras =
  (value <- get_values (choices o) [arg] ;;
   consume rest pos (setattr ns (opt_dest o) value) extras)%py.
Proof. reflexivity. Qed.

Lemma consume_store_next (o : LongOption) (opt arg : string)
  (rest : list Tok) (pos : list string) (ns : Namespace)
  (extras : list string) :
  consume (TO (Store o) opt None :: TA arg :: rest) pos ns extras =
  (value <- get_values (choices o) [arg] ;;
   consume rest pos (setattr ns (opt_dest o) value) extras)%py.
Proof. reflexivity. Qed.

(** The invariant of the consumption of the arguments. *)
Lemma consume_ok (argv : list string) :
  forall n toks pos ns extras pos' ns' extras',
    length toks <= n ->
    wf_toks argv toks ->
    ns_ok argv pos ns ->
    consume toks pos ns extras = Ok (pos', ns', extras') ->
    ns_ok argv pos' ns'.
Proof.
  induction n as [|n IH]; intros toks pos ns extras pos' ns' extras' Hn Ht Hns H.
  - destruct toks; [|simpl in Hn; lia]. simpl in H. now inversion H; subst.
  - destruct toks as [|t rest]; [simpl in H; now inversion H; subst|].
    simpl in Hn.
    inversion Ht as [|r Hr|t0 toks0 Hhead Hrest]; subst.
    + (* the separator, then arguments only *)
      destruct pos as [|dest pos0].
      * rewrite consume_dash_nil, consume_extras in H.
        now inversion H; subst.
      * destruct r as [|s r].
        -- simpl in H. now inversion H; subst.
        -- assert (Hs : In s argv) by (apply Hr; now left).
           destruct (ns_ok_set_json_file _ _ _ _ _ Hs Hns) as [-> Hns'].
           cbn [map] in H.
           rewrite consume_dash_arg, consume_extras in H.
           now inversion H; subst.
    + destruct t as [s| |a opt explicit|s].
      * destruct Hhead as [Hs Hd].
        destruct pos as [|dest pos0].
        -- rewrite consume_arg_extra in H.
           eapply IH; [| exact Hrest | exact Hns | exact H]. lia.
        -- destruct (ns_ok_set_json_file _ _ _ _ _ Hs Hns) as [-> Hns'].
           destruct rest as [|[s1| |a1 o1 e1|s1] rest'].
           ++ rewrite (consume_arg s _ _ _ _ _ Hd) in H by discriminate.
              simpl in H. now inversion H; subst.
           ++ rewrite (consume_arg s _ _ _ _ _ Hd) in H by discriminate.
              eapply IH; [| exact Hrest | exact Hns' | exact H]. lia.
           ++ inversion Hrest as [|r Hr|? ? Hbad _]; subst;
                [|destruct Hbad].
              rewrite (consume_arg_dash s _ _ _ _ _ Hd), consume_extras in H.
              now inversion H; subst.
           ++ rewrite (consume_arg s _ _ _ _ _ Hd) in H by discriminate.
              eapply IH; [| exact Hrest | exact Hns' | exact H]. lia.
           ++ rewrite (consume_arg s _ _ _ _ _ Hd) in H by discriminate.
              eapply IH; [| exact Hrest | exact Hns' | exact H]. lia.
      * destruct Hhead.
      * simpl in Hhead. destruct Hhead as [-> | [-> Hex]].
        -- simpl in H. now apply take_help_exits in H.
        -- destruct explicit as [arg|].
           ++ rewrite consume_store_explicit in H.
              destruct (get_values (choices optimizer_option) [arg])
                as [v|e] eqn:Hv; [|discriminate].
              cbn [Py.bind opt_dest optimizer_option] in H.
              eapply IH; [| exact Hrest | | exact H]; [lia|].
              apply ns_ok_set_optimizer; [|exact Hns].
              destruct (get_values_optimizer _ _ Hv) as [[-> ->] | [-> Hvalid]].
              ** right. split; [reflexivity|]. now apply Hex.
              ** left. now exists arg.
           ++ destruct rest as [|[arg| | |] rest']; try discriminate.
              rewrite consume_store_next in H.
              destruct (get_values (choices optimizer_option) [arg])
                as [v|e] eqn:Hv; [|discriminate].
              cbn [Py.bind opt_dest optimizer_option] in H.
              inversion Hrest as [| |? ? Hplain Hrest']; subst.
              destruct Hplain as [_ Hd].
              eapply IH; [| exact Hrest' | | exact H]; [simpl in Hn; lia|].
              apply ns_ok_set_optimizer; [|exact Hns].
              destruct (get_values_optimizer _ _ Hv) as [[-> _] | [-> Hvalid]];
                [now destruct Hd|].
              left. now exists arg.
      * simpl in H. eapply IH; [| exact Hrest | exact Hns | exact H]. lia.
Qed.

(** Every accepted command line gives the two attributes: a file taken from
    the arguments, and one of the two optimizers or, after an explicit [--],
    the empty list. *)
Lemma parse_args_accepted (argv : list string) (ns : Namespace) :
  parse_args parser argv = Ok ns ->
  exists f o,
    ns = [("optimizer", o); ("json_file", PStr f)] /\
    In f argv /\ valid_value argv o.
Proof.
  unfold parse_args.
  destruct (classify parser argv) as [toks|e] eqn:Hc; [|discriminate].
  simpl.
  destruct (consume toks _ _ []) as [[[pos' ns'] extras']|e] eqn:Hk;
    [|discriminate].
  simpl. destruct pos'; [|discriminate]. destruct extras'; [|discriminate].
  intros H. inversion H; subst.
  assert (Hns : ns_ok argv [] ns).
  { eapply consume_ok; [reflexivity | apply classify_wf, Hc | | exact Hk].
    exists (PStr "MIPROv2"). split; [|now left].
    left. exists "MIPROv2". split; [now right | reflexivity]. }
  destruct Hns as [o [Ho [[Hp _] | [_ [f [Hf ->]]]]]]; [discriminate|].
  now exists f, o.
Qed.





Section Script.

Context {LM : Type}.
Variable Predict_TextCompleteness : Predict LM Completeness.
Variable Predict_ArgumentativeStructure : Predict LM Prediction.
Variable answer_exact_match : option string -> pyval -> result bool.
Variable open_read : string -> result string.
Variable json_load : string -> result pyval.
Variable optimizer_compile :
  Optimizer -> ArgumentativeExtractor LM -> list Example ->
  LM -> result (ArgumentativeExtractor LM) * LM.

(** An accepted command line runs [main] on its file and its optimizer. *)
Lemma script_accepted (argv : list string) (ns : Namespace) (w : World LM) :
  parse_args parser argv = Ok ns ->
  exists f o,
    In f argv /\ valid_value argv o /\
    script Predict_TextCompleteness Predict_ArgumentativeStructure
      answer_exact_match open_read json_load optimizer_compile argv w =
    main Predict_TextCompleteness Predict_ArgumentativeStructure
      answer_exact_match open_read json_load optimizer_compile f o w.
Proof.
  intros H. destruct (parse_args_accepted argv ns H) as [f [o [-> [Hf Ho]]]].
  exists f, o. repeat split; try assumption.
  unfold script, bindM, lift. rewrite H. reflexivity.
Qed.

(** A refused one does not reach [main]: nothing is asked of the model. *)
Lemma script_rejected (argv : list string) (e : exn) (w : World LM) :
  parse_args parser argv = Raise e ->
  script Predict_TextCompleteness Predict_ArgumentativeStructure
    answer_exact_match open_read json_load optimizer_compile argv w =
  (Raise e, w).
Proof. intros H. unfold script, bindM, lift. now rewrite H. Qed.

End Script.

End CommandLineFacts.

(** ** [print_full_prompt] *)

Module PromptFacts.

Import Extractor Vocabulary Samples.

Lemma read_fields_ok (demo : Example) (fields : list string) :
  read_fields demo fields = Ok tt <-> has_fields fields demo = true.
Proof.
  induction fields as [|f fields IH]; simpl; [tauto|].
  unfold Example_getattr, Example_contains, dict_has.
  destruct (dict_get f (store demo)); simpl; [exact IH|].
  split; discriminate.
Qed.

Lemma read_fields_raise (demo : Example) (fields : list string) (e : exn) :
  read_fields demo fields = Raise e ->
  exists f, e = AttributeError f /\ In f fields /\
            Example_contains f demo = false.
Proof.
  induction fields as [|f fields IH]; simpl; [discriminate|].
  unfold Example_getattr.
  destruct (dict_get f (store demo)) eqn:Hf; simpl.
  - intros H. destruct (IH H) as [g [He [Hg Hc]]]. exists g. auto.
  - intros H. injection H as <-. exists f. repeat split; [now left|].
    unfold Example_contains, dict_has. now rewrite Hf.
Qed.

Lemma print_demos_ok (ds : list Example) (fields : list string) :
  print_demos ds fields = Ok tt <->
  Forall (fun demo => has_fields fields demo = true) ds.
Proof.
  induction ds as [|demo ds IH]; simpl.
  - split; [constructor | reflexivity].
  - destruct (read_fields demo fields) as [[]|e] eqn:Hr; simpl.
    + rewrite IH. apply read_fields_ok in Hr. split.
      * intros H. now constructor.
      * intros H. now inversion H.
    + split; [discriminate|]. intros H. inversion H as [|? ? Hd _]; subst.
      apply read_fields_ok in Hd. congruence.
Qed.

Lemma print_demos_raise (ds : list Example) (fields : list string)
  (e : exn) :
  print_demos ds fields = Raise e ->
  exists f demo, e = AttributeError f /\ In f fields /\ In demo ds /\
                 Example_contains f demo = false.
Proof.
  induction ds as [|demo ds IH]; simpl; [discriminate|].
  destruct (read_fields demo fields) as [[]|e'] eqn:Hr; simpl.
  - intros H. destruct (IH H) as [f [d [He [Hf [Hd Hc]]]]].
    exists f, d. auto.
  - intros H. injection H as <-.
    destruct (read_fields_raise _ _ _ Hr) as [f [He [Hf Hc]]].
    exists f, demo. auto.
Qed.

Section Prompt.

Context {LM : Type}.

(** X1.  [print_full_prompt] succeeds exactly when every demo of the
    classifier has the fields [text] and [missing_components] and every demo
    of the extractor has [context] and the four output fields; demos that
    are [None] count as no demos. *)
Theorem print_full_prompt_ok_iff (compiled_module : ArgumentativeExtractor LM) :
  print_full_prompt compiled_module = Ok tt <->
  Forall (fun demo => has_fields ["text"; "missing_components"] demo = true)
    (demos_or_empty (demos (completeness_classifier compiled_module))) /\
  Forall (fun demo =>
            has_fields ["context"; "topic_sentence"; "evidence"; "analysis";
                        "tieback_or_transition"] demo = true)
    (demos_or_empty (demos (structure_extractor compiled_module))).
Proof.
  unfold print_full_prompt. rewrite <- !print_demos_ok.
  destruct (print_demos _ ["text"; "missing_components"]) as [[]|e]; simpl.
  - destruct (print_demos _ _) as [[]|e]; simpl.
    + tauto.
    + split; [discriminate | intros [_ H]; discriminate].
  - split; [discriminate | intros [H _]; discriminate].
Qed.

(** X2.  When [print_full_prompt] fails it raises [AttributeError] for a
    field that some demo lacks: a field of the classifier's demos, or, when
    all of these are complete, a field of the extractor's demos. *)
Theorem print_full_prompt_raise_inv
  (compiled_module : ArgumentativeExtractor LM) (e : exn) :
  print_full_prompt compiled_module = Raise e ->
  exists field demo,
    e = AttributeError field /\
    Example_contains field demo = false /\
    ((In field ["text"; "missing_components"] /\
      In demo (demos_or_empty
                 (demos (completeness_classifier compiled_module)))) \/
     (Forall (fun d => has_fields ["text"; "missing_components"] d = true)
        (demos_or_empty (demos (completeness_classifier compiled_module))) /\
      In field ["context"; "topic_sentence"; "evidence"; "analysis";
                "tieback_or_transition"] /\
      In demo (demos_or_empty
                 (demos (structure_extractor compiled_module))))).
Proof.
  unfold print_full_prompt.
  set (cd := demos_or_empty (demos (completeness_classifier compiled_module))).
  set (ed := demos_or_empty (demos (structure_extractor compiled_module))).
  destruct (print_demos cd ["text"; "missing_components"]) as [[]|e1] eqn:H1;
    unfold Py.bind at 1.
  - destruct (print_demos ed _) as [[]|e2] eqn:H2; unfold Py.bind;
      [discriminate|].
    intros H. injection H as <-.
    destruct (print_demos_raise _ _ _ H2) as [f [d [He [Hf [Hd Hc]]]]].
    exists f, d. repeat split; try assumption.
    right. repeat split; try assumption. now apply print_demos_ok.
  - intros H. injection H as <-.
    destruct (print_demos_raise _ _ _ H1) as [f [d [He [Hf [Hd Hc]]]]].
    exists f, d. repeat split; try assumption. now left.
Qed.

End Prompt.

Lemma print_full_prompt_raise_inv_witness :
  exists field demo,
    AttributeError "missing_components" = AttributeError field /\
    Example_contains field demo = false /\
    ((In field ["text"; "missing_components"] /\
      In demo (demos_or_empty
                 (demos (completeness_classifier module_with_short_demo)))) \/
     (Forall (fun d => has_fields ["text"; "missing_components"] d = true)
        (demos_or_empty
           (demos (completeness_classifier module_with_short_demo))) /\
      In field ["context"; "topic_sentence"; "evidence"; "analysis";
                "tieback_or_transition"] /\
      In demo (demos_or_empty
                 (demos (structure_extractor module_with_short_demo))))).
Proof.
  apply (print_full_prompt_raise_inv module_with_short_demo
           (AttributeError "missing_components") eq_refl).
Defined.

End PromptFacts.

(** ** [main] *)

Module MainFacts.

Import Extractor Vocabulary Samples.

Section Main.

Context {LM : Type}.
Variable Predict_TextCompleteness : Predict LM Completeness.
Variable Predict_ArgumentativeStructure : Predict LM Prediction.
Variable answer_exact_match : option string -> pyval -> result bool.
Variable open_read : string -> result string.
Variable json_load : string -> result pyval.
Variable optimizer_compile :
  Optimizer -> ArgumentativeExtractor LM -> list Example ->
  LM -> result (ArgumentativeExtractor LM) * LM.

(** One run of [forward] adds the call of the classifier and at most the
    call of the extractor. *)
Lemma forward_calls_spec (self : ArgumentativeExtractor LM) (text : string)
  (w : World LM) :
  exists extracted,
    calls (snd (forward self text w)) = calls w ++ forward_calls text extracted.
Proof.
  rewrite ForwardFacts.forward_unfold.
  destruct (run (completeness_classifier self) text (lm w)) as [[cr|e] st];
    [|now exists false].
  destruct (missing_components cr) as [mc|]; [|now exists false].
  destruct (contains "all_present" (lower mc)); [|now exists false].
  destruct (run (structure_extractor self) text st). now exists true.
Qed.

(** X3.  When [main] returns, what it returns is the module that the
    optimizer gave for the student of [__init__] and the training set of
    [load_trainset], and both sample texts were run and the prompt printed
    without failure. *)
Theorem main_returns_compiled (path : string) (optimizer_type : pyval)
  (w : World LM)
  (compiled : ArgumentativeExtractor LM) :
  fst (main Predict_TextCompleteness Predict_ArgumentativeStructure
         answer_exact_match open_read json_load optimizer_compile
         path optimizer_type w) = Ok compiled ->
  exists trainset st,
    load_trainset open_read json_load path = Ok trainset /\
    optimizer_compile (optimizer_of answer_exact_match optimizer_type)
      (init Predict_TextCompleteness Predict_ArgumentativeStructure)
      trainset (lm w) = (Ok compiled, st) /\
    is_ok (fst (forward compiled unseen_text_complete
                  (mkWorld st (calls w)))) = true /\
    is_ok (fst (forward compiled unseen_text_incomplete
                  (snd (forward compiled unseen_text_complete
                          (mkWorld st (calls w)))))) = true /\
    print_full_prompt compiled = Ok tt.
Proof.
  rewrite FailureFacts.main_unfold.
  destruct (load_trainset open_read json_load path) as [trainset|e];
    [|discriminate].
  destruct (optimizer_compile _ _ trainset (lm w)) as [[c|e] st] eqn:Hc;
    [|discriminate].
  destruct (forward c unseen_text_complete _) as [[p1|e] w1] eqn:H1;
    [|discriminate].
  destruct (forward c unseen_text_incomplete w1) as [[p2|e] w2] eqn:H2;
    [|discriminate].
  destruct (print_full_prompt c) as [[]|e] eqn:Hp; [|discriminate].
  simpl. intros H. injection H as <-.
  exists trainset, st. rewrite H1. simpl. rewrite H2. auto.
Qed.

(** X4.  Whatever [main] raises was raised by one of its steps:
    [load_trainset], the optimizer, the run on the complete sample, the run
    on the incomplete sample, or [print_full_prompt], each reached only when
    the steps before it succeeded. *)
Theorem main_raise_inv (path : string) (optimizer_type : pyval)
  (w : World LM) (e : exn) :
  fst (main Predict_TextCompleteness Predict_ArgumentativeStructure
         answer_exact_match open_read json_load optimizer_compile
         path optimizer_type w) = Raise e ->
  load_trainset open_read json_load path = Raise e \/
  exists trainset,
    load_trainset open_read json_load path = Ok trainset /\
    ((exists st,
        optimizer_compile (optimizer_of answer_exact_match optimizer_type)
          (init Predict_TextCompleteness Predict_ArgumentativeStructure)
          trainset (lm w) = (Raise e, st)) \/
     exists compiled st,
       optimizer_compile (optimizer_of answer_exact_match optimizer_type)
         (init Predict_TextCompleteness Predict_ArgumentativeStructure)
         trainset (lm w) = (Ok compiled, st) /\
       (fst (forward compiled unseen_text_complete (mkWorld st (calls w)))
        = Raise e \/
        (is_ok (fst (forward compiled unseen_text_complete
                       (mkWorld st (calls w)))) = true /\
         (fst (forward compiled unseen_text_incomplete
                 (snd (forward compiled unseen_text_complete
                         (mkWorld st (calls w))))) = Raise e \/
          (is_ok (fst (forward compiled unseen_text_incomplete
                         (snd (forward compiled unseen_text_complete
                                 (mkWorld st (calls w)))))) = true /\
           print_full_prompt compiled = Raise e))))).
Proof.
  rewrite FailureFacts.main_unfold.
  destruct (load_trainset open_read json_load path) as [trainset|e0];
    [|simpl; intros H; left; injection H as ->; reflexivity].
  intros H. right. exists trainset. split; [reflexivity|].
  destruct (optimizer_compile _ _ trainset (lm w)) as [[c|e0] st] eqn:Hc.
  - right. exists c, st. split; [reflexivity|].
    destruct (forward c unseen_text_complete _) as [[p1|e1] w1] eqn:H1.
    + right. split; [reflexivity|]. simpl.
      destruct (forward c unseen_text_incomplete w1) as [[p2|e2] w2] eqn:H2.
      * right. split; [reflexivity|].
        destruct (print_full_prompt c) as [[]|e3]; [discriminate|].
        simpl in H. injection H as ->. reflexivity.
      * left. simpl in H. injection H as ->. reflexivity.
    + left. simpl in H. injection H as ->. reflexivity.
  - left. exists st. simpl in H. injection H as ->. reflexivity.
Qed.

(** X5.  The calls that [main] itself makes to the predictors are those of
    the two sample runs, the complete text first and for each text the
    classifier before the extractor: none when [load_trainset] or the
    optimizer fails; when the run on the complete text fails, the calls of
    that run and no more; otherwise the calls of that run followed by those
    of the run on the incomplete text, whether or not that run and the
    printing of the prompt succeed. *)
Theorem main_calls (path : string) (optimizer_type : pyval) (w : World LM) :
  exists l,
    calls (snd (main Predict_TextCompleteness Predict_ArgumentativeStructure
                  answer_exact_match open_read json_load optimizer_compile
                  path optimizer_type w)) = calls w ++ l /\
    match load_trainset open_read json_load path with
    | Raise _ => l = []
    | Ok trainset =>
        match optimizer_compile (optimizer_of answer_exact_match optimizer_type)
                (init Predict_TextCompleteness Predict_ArgumentativeStructure)
                trainset (lm w) with
        | (Raise _, _) => l = []
        | (Ok compiled, st) =>
            exists b1,
              calls (snd (forward compiled unseen_text_complete
                            (mkWorld st (calls w))))
              = calls w ++ forward_calls unseen_text_complete b1 /\
              if is_ok (fst (forward compiled unseen_text_complete
                               (mkWorld st (calls w))))
              then
                exists b2,
                  calls (snd (forward compiled unseen_text_incomplete
                                (snd (forward compiled unseen_text_complete
                                        (mkWorld st (calls w))))))
                  = calls w ++ forward_calls unseen_text_complete b1 ++
                               forward_calls unseen_text_incomplete b2 /\
                  l = forward_calls unseen_text_complete b1 ++
                      forward_calls unseen_text_incomplete b2
              else l = forward_calls unseen_text_complete b1
        end
    end.
Proof.
  rewrite FailureFacts.main_unfold.
  destruct (load_trainset open_read json_load path) as [trainset|e].
  2:{ exists []. simpl. now rewrite app_nil_r. }
  destruct (optimizer_compile _ _ trainset (lm w)) as [[c|e] st].
  2:{ exists []. simpl. now rewrite app_nil_r. }
  destruct (forward_calls_spec c unseen_text_complete (mkWorld st (calls w)))
    as [b1 Hb1].
  destruct (forward c unseen_text_complete _) as [[p1|e] w1].
  2:{ exists (forward_calls unseen_text_complete b1). simpl in *.
      split; [exact Hb1|]. exists b1. now split. }
  destruct (forward_calls_spec c unseen_text_incomplete w1) as [b2 Hb2].
  simpl in Hb1.
  assert (Hcalls : calls (snd (forward c unseen_text_incomplete w1)) =
                   calls w ++ forward_calls unseen_text_complete b1 ++
                              forward_calls unseen_text_incomplete b2).
  { now rewrite Hb2, Hb1, <- app_assoc. }
  exists (forward_calls unseen_text_complete b1 ++
          forward_calls unseen_text_incomplete b2).
  split.
  - destruct (forward c unseen_text_incomplete w1) as [[p2|e] w2];
      [destruct (print_full_prompt c)|]; exact Hcalls.
  - exists b1. split; [exact Hb1|]. simpl. exists b2. now split.
Qed.

(** X6.  [main] does not check its [optimizer_type]: every value other than
    ["BootstrapFewShot"] runs as ["MIPROv2"] does. *)
Theorem main_other_optimizer (path : string) (optimizer_type : pyval)
  (w : World LM) :
  optimizer_type <> PStr "BootstrapFewShot" ->
  main Predict_TextCompleteness Predict_ArgumentativeStructure
    answer_exact_match open_read json_load optimizer_compile
    path optimizer_type w =
  main Predict_TextCompleteness Predict_ArgumentativeStructure
    answer_exact_match open_read json_load optimizer_compile
    path (PStr "MIPROv2") w.
Proof.
  intros H. rewrite !FailureFacts.main_unfold. unfold optimizer_of.
  assert (Hne : py_eq_str optimizer_type "BootstrapFewShot" = false).
  { destruct optimizer_type; try reflexivity.
    simpl. apply String.eqb_neq. intros ->. now apply H. }
  rewrite Hne. reflexivity.
Qed.

End Main.

Lemma main_returns_compiled_witness :
  exists trainset st,
    load_trainset (one_file "train.json" train_json)
      (parses_to train_json train_data) "train.json" = Ok trainset /\
    keep_student (optimizer_of same_string (PStr "MIPROv2"))
      (init (fixed_predict (Ok (mkCompleteness (Some "evidence"))))
         (fixed_predict (Ok four_fields)))
      trainset tt
    = (Ok (fixed_extractor (Some "evidence") (Ok four_fields)), st).
Proof.
  destruct (main_returns_compiled
              (fixed_predict (Ok (mkCompleteness (Some "evidence"))))
              (fixed_predict (Ok four_fields)) same_string
              (one_file "train.json" train_json)
              (parses_to train_json train_data) keep_student
              "train.json" (PStr "MIPROv2") w0
              (fixed_extractor (Some "evidence") (Ok four_fields)) eq_refl)
    as [trainset [st [H1 [H2 _]]]].
  exists trainset, st. split; assumption.
Defined.

Lemma main_raise_inv_witness :
  load_trainset (one_file "train.json" train_json)
    (parses_to train_json train_data) "train.json"
  = Raise (Foreign "APIError" "rate limit") \/
  exists trainset,
    load_trainset (one_file "train.json" train_json)
      (parses_to train_json train_data) "train.json" = Ok trainset.
Proof.
  destruct (main_raise_inv
              (fixed_predict (Ok (mkCompleteness (Some "evidence"))))
              (fixed_predict (Ok four_fields)) same_string
              (one_file "train.json" train_json)
              (parses_to train_json train_data) failing_optimizer
              "train.json" (PStr "MIPROv2") w0
              (Foreign "APIError" "rate limit") eq_refl)
    as [H | [trainset [H _]]].
  - now left.
  - right. now exists trainset.
Defined.

Lemma main_other_optimizer_witness :
  main (fixed_predict (Ok (mkCompleteness (Some "evidence"))))
    (fixed_predict (Ok four_fields)) same_string
    (one_file "train.json" train_json) (parses_to train_json train_data)
    keep_student "train.json" (PStr "bootstrapfewshot") w0 =
  main (fixed_predict (Ok (mkCompleteness (Some "evidence"))))
    (fixed_predict (Ok four_fields)) same_string
    (one_file "train.json" train_json) (parses_to train_json train_data)
    keep_student "train.json" (PStr "MIPROv2") w0.
Proof.
  apply main_other_optimizer. discriminate.
Defined.

End MainFacts.

(** ** The script run from the command line *)

Module ScriptFacts.

Import Argparse Extractor Vocabulary Samples.

Lemma parse_optional_raise (p : Parser) (arg : string) (e : exn) :
  parse_optional p arg = Raise e -> e = SystemExit 2.
Proof.
  unfold parse_optional.
  destruct arg as [|c rest]; [discriminate|].
  destruct (negb (Ascii.eqb c "-")); [discriminate|].
  destruct (assoc (String c rest) (option_string_actions p)); [discriminate|].
  destruct (Nat.eqb _ 1); [discriminate|].
  destruct (match split_eq (String c rest) with
            | Some (o, e0) =>
                match assoc o (option_string_actions p) with
                | Some a => Some (TO a o (Some e0))
                | None => None
                end
            | None => None
            end); [discriminate|].
  destruct (get_option_tuples p (String c rest)) as [|[[a o] x] [|y l]].
  - destruct (negative_number _); [discriminate|].
    destruct (contains _ _); discriminate.
  - discriminate.
  - intros H. now injection H as <-.
Qed.

Lemma classify_raise (p : Parser) (argv : list string) (e : exn) :
  classify p argv = Raise e -> e = SystemExit 2.
Proof.
  induction argv as [|arg rest IH]; simpl; [discriminate|].
  destruct (String.eqb arg "--"); [discriminate|].
  destruct (parse_optional p arg) as [t|e'] eqn:Ht; simpl.
  - destruct (classify p rest) as [ts|e'']; simpl; [discriminate|].
    intros H. injection H as <-. now apply IH.
  - intros H. injection H as <-. now apply parse_optional_raise in Ht.
Qed.

Lemma take_help_raise {A : Type} (opt : string) (explicit : option string)
  (e : exn) :
  @take_help A opt explicit = Raise e -> e = SystemExit 0 \/ e = SystemExit 2.
Proof.
  unfold take_help. destruct explicit as [x|].
  - destruct (_ && _); intros H; injection H as <-; auto.
  - intros H; injection H as <-; auto.
Qed.

Lemma check_value_raise (chs : option (list string)) (value : string)
  (e : exn) :
  check_value chs value = Raise e -> e = SystemExit 2.
Proof.
  unfold check_value. destruct chs as [allowed|]; [|discriminate].
  destruct (list_contains value allowed); [discriminate|].
  intros H. now injection H as <-.
Qed.

Lemma check_values_raise (chs : option (list string)) (values : list string)
  (e : exn) :
  check_values chs values = Raise e -> e = SystemExit 2.
Proof.
  induction values as [|v rest IH]; simpl; [discriminate|].
  destruct (check_value chs v) as [[]|e'] eqn:Hc; simpl.
  - exact IH.
  - intros H. injection H as <-. eapply check_value_raise, Hc.
Qed.

Lemma get_values_raise (chs : option (list string))
  (arg_strings : list string) (e : exn) :
  get_values chs arg_strings = Raise e -> e = SystemExit 2.
Proof.
  unfold get_values.
  assert (Hlist : forall values,
            (_ <- check_values chs values ;;
             Ok (PList (map PStr values)))%py = Raise e ->
            e = SystemExit 2).
  { intros values.
    destruct (check_values chs values) as [[]|e'] eqn:Hc; simpl;
      [discriminate|].
    intros H. injection H as <-. eapply check_values_raise, Hc. }
  destruct (remove_first "--" arg_strings) as [|v [|v' l]];
    try apply Hlist.
  destruct (check_value chs v) as [[]|e'] eqn:Hc; simpl; [discriminate|].
  intros H. injection H as <-. eapply check_value_raise, Hc.
Qed.

Lemma consume_arg_step (s dest : string) (rest : list Tok)
  (pos : list string) (ns : Namespace) (extras : list string) :
  consume (TA s :: rest) (dest :: pos) ns extras =
  match rest with
  | TDash :: rest' =>
      (value <- get_values None [s; "--"] ;;
       consume rest' pos (setattr ns dest value) extras)%py
  | _ =>
      (value <- get_values None [s] ;;
       consume rest pos (setattr ns dest value) extras)%py
  end.
Proof. destruct rest as [|[ | | | ] rest']; reflexivity. Qed.

Lemma consume_dash_step (rest : list Tok) (pos : list string)
  (ns : Namespace) (extras : list string) :
  consume (TDash :: rest) pos ns extras =
  match pos, rest with
  | dest :: pos', TA s :: rest' =>
      consume rest' pos' (setattr ns dest (PStr s)) extras
  | _, _ => consume rest pos ns (extras ++ ["--"])
  end.
Proof.
  destruct pos as [|dest pos']; [reflexivity|].
  destruct rest as [|[ | | | ] rest']; reflexivity.
Qed.

Lemma consume_unknown_step (s : string) (rest : list Tok) (pos : list string)
  (ns : Namespace) (extras : list string) :
  consume (TUnknown s :: rest) pos ns extras =
  consume rest pos ns (extras ++ [s]).
Proof. reflexivity. Qed.

Lemma consume_raise :
  forall n toks pos ns extras e,
    length toks <= n ->
    consume toks pos ns extras = Raise e ->
    e = SystemExit 0 \/ e = SystemExit 2.
Proof.
  induction n as [|n IH]; intros toks pos ns extras e Hn H.
  - destruct toks; [discriminate | simpl in Hn; lia].
  - destruct toks as [|t rest]; [discriminate|].
    simpl in Hn.
    destruct t as [s| |a opt explicit|s].
    + destruct pos as [|dest pos0].
      * rewrite CommandLineFacts.consume_arg_extra in H.
        eapply IH; [|exact H]. lia.
      * rewrite consume_arg_step in H.
        destruct rest as [|[s1| |a1 o1 e1|s1] rest'];
          (destruct (get_values None _) as [v|e'] eqn:Hg; cbn [Py.bind] in H;
           [ eapply IH; [|exact H]; simpl in *; lia
           | injection H as <-; right; eapply get_values_raise, Hg ]).
    + rewrite consume_dash_step in H.
      destruct pos as [|dest pos0];
        [|destruct rest as [|[s1| |a1 o1 e1|s1] rest']];
        (eapply IH; [|exact H]; simpl in *; lia).
    + destruct a as [o|].
      * destruct explicit as [value|].
        -- rewrite CommandLineFacts.consume_store_explicit in H.
           destruct (get_values (choices o) [value]) as [v|e'] eqn:Hg;
             cbn [Py.bind] in H.
           ++ eapply IH; [|exact H]. lia.
           ++ injection H as <-. right. eapply get_values_raise, Hg.
        -- destruct rest as [|[value| |a1 o1 e1|s1] rest'];
             try (cbn [consume] in H; injection H as <-; now right).
           rewrite CommandLineFacts.consume_store_next in H.
           destruct (get_values (choices o) [value]) as [v|e'] eqn:Hg;
             cbn [Py.bind] in H.
           ++ eapply IH; [|exact H]. simpl in Hn. lia.
           ++ injection H as <-. right. eapply get_values_raise, Hg.
      * cbn [consume] in H. eapply take_help_raise, H.
    + rewrite consume_unknown_step in H. eapply IH; [|exact H]. lia.
Qed.

(** Whatever the parser, a refused command line exits with status 0 (help)
    or 2 (error). *)
Lemma parse_args_raise (p : Parser) (argv : list string) (e : exn) :
  parse_args p argv = Raise e -> e = SystemExit 0 \/ e = SystemExit 2.
Proof.
  unfold parse_args.
  destruct (classify p argv) as [toks|e'] eqn:Hc; simpl.
  - destruct (consume toks _ _ []) as [[[pos ns] extras]|e''] eqn:Hk; simpl.
    + destruct pos; [destruct extras|]; try discriminate;
        intros H; injection H as <-; now right.
    + intros H. injection H as <-. eapply consume_raise; [|exact Hk].
      reflexivity.
  - intros H. injection H as <-. right. eapply classify_raise, Hc.
Qed.

Lemma parse_args_file_only (f : string) :
  is_argument f ->
  parse_args parser [f] =
  Ok [("optimizer", PStr "MIPROv2"); ("json_file", PStr f)].
Proof.
  intros [Hf Hd]. unfold parse_args. simpl classify.
  pose proof Hd as Hd'. apply String.eqb_neq in Hd'. rewrite Hd', Hf.
  cbn [Py.bind]. simpl consume.
  rewrite (CommandLineFacts.get_values_argument f Hd). reflexivity.
Qed.

Lemma parse_args_file_optimizer (f value : string) :
  is_argument f -> is_argument value -> valid_optimizer value ->
  parse_args parser [f; "--optimizer"; value] =
  Ok [("optimizer", PStr value); ("json_file", PStr f)].
Proof.
  intros [Hf Hfd] [Hv Hvd] Hvalid. unfold parse_args. simpl classify.
  pose proof Hfd as Hfd'. pose proof Hvd as Hvd'.
  apply String.eqb_neq in Hfd', Hvd'. rewrite Hfd', Hf, Hvd', Hv.
  cbn [Py.bind]. simpl consume.
  rewrite (CommandLineFacts.get_values_argument f Hfd). cbn [Py.bind].
  unfold get_values. simpl. rewrite Hvd'. simpl.
  destruct Hvalid as [-> | ->]; reflexivity.
Qed.

Section Script.

Context {LM : Type}.
Variable Predict_TextCompleteness : Predict LM Completeness.
Variable Predict_ArgumentativeStructure : Predict LM Prediction.
Variable answer_exact_match : option string -> pyval -> result bool.
Variable open_read : string -> result string.
Variable json_load : string -> result pyval.
Variable optimizer_compile :
  Optimizer -> ArgumentativeExtractor LM -> list Example ->
  LM -> result (ArgumentativeExtractor LM) * LM.

(** X7.  The script run on a command line either runs [main] on a file
    name taken from the command line and on the optimizer it was given, or
    exits with status 0 or 2 before anything is read or asked of the model.
    The optimizer is one of the two names, or the empty list when an
    argument gave the option the explicit value [--]; in each case [main]
    does what it does for one of the two names. *)
Theorem script_outcome (argv : list string) (w : World LM) :
  (exists f o,
     In f argv /\
     (o = PStr "BootstrapFewShot" \/ o = PStr "MIPROv2" \/
      (o = PList [] /\
       exists arg pre, In arg argv /\ arg = (pre ++ "=--")%string)) /\
     script Predict_TextCompleteness Predict_ArgumentativeStructure
       answer_exact_match open_read json_load optimizer_compile argv w =
     main Predict_TextCompleteness Predict_ArgumentativeStructure
       answer_exact_match open_read json_load optimizer_compile f o w /\
     exists name,
       valid_optimizer name /\
       main Predict_TextCompleteness Predict_ArgumentativeStructure
         answer_exact_match open_read json_load optimizer_compile f o w =
       main Predict_TextCompleteness Predict_ArgumentativeStructure
         answer_exact_match open_read json_load optimizer_compile
         f (PStr name) w) \/
  (exists code,
     (code = 0%Z \/ code = 2%Z) /\
     script Predict_TextCompleteness Predict_ArgumentativeStructure
       answer_exact_match open_read json_load optimizer_compile argv w =
     (Raise (SystemExit code), w)).
Proof.
  destruct (parse_args parser argv) as [ns|e] eqn:H.
  - left.
    destruct (CommandLineFacts.parse_args_accepted argv ns H)
      as [f [o [-> [Hf Ho]]]].
    exists f, o. split; [exact Hf|].
    split; [|split].
    + destruct Ho as [[x [[-> | ->] ->]] | Ho]; auto.
    + unfold script, bindM, lift. rewrite H. reflexivity.
    + destruct Ho as [[x [Hx ->]] | [-> _]].
      * now exists x.
      * exists "MIPROv2". split; [now right|].
        rewrite !FailureFacts.main_unfold. reflexivity.
  - right. unfold script, bindM, lift. rewrite H.
    destruct (parse_args_raise _ _ _ H) as [-> | ->];
      [exists 0%Z | exists 2%Z]; auto.
Qed.

(** X8.  A command line that gives only the file runs [main] with the
    optimizer ["MIPROv2"]; with [--optimizer] and one of the two names after
    the file, [main] is run with that name. *)
Theorem script_default_optimizer (f : string) (w : World LM) :
  is_argument f ->
  script Predict_TextCompleteness Predict_ArgumentativeStructure
    answer_exact_match open_read json_load optimizer_compile [f] w =
  main Predict_TextCompleteness Predict_ArgumentativeStructure
    answer_exact_match open_read json_load optimizer_compile
    f (PStr "MIPROv2") w /\
  forall value,
    is_argument value -> valid_optimizer value ->
    script Predict_TextCompleteness Predict_ArgumentativeStructure
      answer_exact_match open_read json_load optimizer_compile
      [f; "--optimizer"; value] w =
    main Predict_TextCompleteness Predict_ArgumentativeStructure
      answer_exact_match open_read json_load optimizer_compile
      f (PStr value) w.
Proof.
  intros Hf. split.
  - unfold script, bindM, lift. rewrite (parse_args_file_only f Hf).
    reflexivity.
  - intros value Hv Hvalid. unfold script, bindM, lift.
    rewrite (parse_args_file_optimizer f value Hf Hv Hvalid). reflexivity.
Qed.

End Script.

Lemma script_default_optimizer_witness :
  script (fixed_predict (Ok (mkCompleteness (Some "evidence"))))
    (fixed_predict (Ok four_fields)) same_string
    (one_file "train.json" train_json) (parses_to train_json train_data)
    keep_student ["train.json"] w0 =
  main (fixed_predict (Ok (mkCompleteness (Some "evidence"))))
    (fixed_predict (Ok four_fields)) same_string
    (one_file "train.json" train_json) (parses_to train_json train_data)
    keep_student "train.json" (PStr "MIPROv2") w0.
Proof.
  assert (Hf : is_argument "train.json")
    by (split; [reflexivity | discriminate]).
  exact (proj1 (script_default_optimizer
                  (fixed_predict (Ok (mkCompleteness (Some "evidence"))))
                  (fixed_predict (Ok four_fields)) same_string
                  (one_file "train.json" train_json)
                  (parses_to train_json train_data)
                  keep_student "train.json" w0 Hf)).
Defined.

End ScriptFacts.

(** ** [load_trainset] on other shapes of file *)

Module LoaderShapeFacts.

Import Extractor Vocabulary Samples.

Lemma load_samples_bad (items : list pyval) :
  forall trainset,
    Exists (fun v => is_record v = false) items ->
    load_samples items trainset = Raise TypeError.
Proof.
  induction items as [|v items IH]; intros trainset H.
  - inversion H.
  - cbn [load_samples].
    destruct (Example_of v) as [example|e] eqn:Hv; simpl.
    + apply IH. inversion H as [? ? Hbad|? ? Ht]; subst; [|exact Ht].
      destruct v as [| | | | |d]; discriminate.
    + now rewrite (LoaderFacts.Example_of_raise v e Hv).
Qed.

Section Loader.

Variable open_read : string -> result string.
Variable json_load : string -> result pyval.

(** X9.  One item of ["samples"] that is not an object makes
    [load_trainset] raise [TypeError], wherever it stands among the items
    and whatever the other items are: no partial training set comes out. *)
Theorem load_trainset_bad_item (path f : string) (data samples : pyval)
  (items : list pyval) :
  open_read path = Ok f ->
  json_load f = Ok data ->
  py_getitem data "samples" = Ok samples ->
  py_iter samples = Ok items ->
  Exists (fun v => is_record v = false) items ->
  load_trainset open_read json_load path = Raise TypeError.
Proof.
  intros Hf Hd Hs Hi Hbad.
  rewrite (LoaderFacts.load_trainset_unfold open_read json_load path f data
             Hf Hd), Hs.
  simpl. rewrite Hi. simpl. now apply load_samples_bad.
Qed.

(** X10.  When the parsed file is not an object, [load_trainset] raises
    [TypeError].  When its ["samples"] is not an array: an empty string or
    an empty object gives the empty training set, and anything else (a string
    or an object that is not empty, a number, a boolean, [null]) raises
    [TypeError]. *)
Theorem load_trainset_other_shapes (path f : string) (data : pyval) :
  open_read path = Ok f ->
  json_load f = Ok data ->
  (is_record data = false ->
   load_trainset open_read json_load path = Raise TypeError) /\
  (forall samples,
     py_getitem data "samples" = Ok samples ->
     (forall l, samples <> PList l) ->
     load_trainset open_read json_load path =
     match samples with
     | PStr EmptyString => Ok []
     | PDict [] => Ok []
     | _ => Raise TypeError
     end).
Proof.
  intros Hf Hd.
  rewrite (LoaderFacts.load_trainset_unfold open_read json_load path f data
             Hf Hd).
  split.
  - intros H. destruct data; try reflexivity. discriminate.
  - intros samples Hs Hl. rewrite Hs. simpl.
    destruct samples as [| | |s|l|d]; try reflexivity.
    + destruct s; reflexivity.
    + now destruct (Hl l).
    + destruct d as [|[k v] d]; reflexivity.
Qed.

(** X11.  [load_trainset] raises nothing of its own but [KeyError] for a
    missing ["samples"] and [TypeError]: any other exception is the one that
    reading the file or parsing it raised. *)
Theorem load_trainset_raise_inv (path : string) (e : exn) :
  load_trainset open_read json_load path = Raise e ->
  open_read path = Raise e \/
  (exists f, open_read path = Ok f /\ json_load f = Raise e) \/
  e = KeyError "samples" \/ e = TypeError.
Proof.
  unfold load_trainset.
  destruct (open_read path) as [f|e1]; simpl;
    [|intros H; injection H as ->; now left].
  destruct (json_load f) as [data|e2] eqn:Hd; simpl.
  2:{ intros H. injection H as ->. right; left. exists f. now split. }
  intros H. right; right.
  destruct data as [| | | | |d]; simpl in H;
    try (injection H as <-; now right).
  destruct (dict_get "samples" d) as [samples|]; simpl in H;
    [|injection H as <-; now left].
  right.
  destruct (py_iter samples) as [items|e3] eqn:Hi; simpl in H.
  - eapply LoaderFacts.load_samples_raise, H.
  - destruct samples; simpl in Hi; try discriminate;
      injection Hi as <-; now injection H as <-.
Qed.

End Loader.

Lemma load_trainset_bad_item_witness :
  load_trainset (one_file "train.json" train_json)
    (parses_to train_json
       (PDict [("samples",
                PList [PDict [("text", PStr "Dogs are the best pets.")];
                       PStr "Cats too."])]))
    "train.json"
  = Raise TypeError.
Proof.
  apply (load_trainset_bad_item _ _ "train.json" train_json
           (PDict [("samples",
                    PList [PDict [("text", PStr "Dogs are the best pets.")];
                           PStr "Cats too."])])
           (PList [PDict [("text", PStr "Dogs are the best pets.")];
                   PStr "Cats too."])
           [PDict [("text", PStr "Dogs are the best pets.")];
            PStr "Cats too."]
           eq_refl eq_refl eq_refl eq_refl).
  right. left. reflexivity.
Defined.

Lemma load_trainset_other_shapes_witness :
  load_trainset (one_file "train.json" train_json)
    (parses_to train_json (PList (map PDict train_records))) "train.json"
  = Raise TypeError /\
  load_trainset (one_file "train.json" train_json)
    (parses_to train_json (PDict [("samples", PDict [])])) "train.json"
  = Ok [].
Proof.
  split.
  - apply (proj1 (load_trainset_other_shapes _ _ "train.json" train_json
                    (PList (map PDict train_records)) eq_refl eq_refl)).
    reflexivity.
  - apply (proj2 (load_trainset_other_shapes _ _ "train.json" train_json
                    (PDict [("samples", PDict [])]) eq_refl eq_refl)
             (PDict []) eq_refl).
    discriminate.
Defined.

Lemma load_trainset_raise_inv_witness :
  malformed "not json" = Raise (Foreign "JSONDecodeError" "Expecting value") /\
  (one_file "train.json" "not json" "train.json"
   = Raise (Foreign "JSONDecodeError" "Expecting value") \/
   (exists f, one_file "train.json" "not json" "train.json" = Ok f /\
              malformed f = Raise (Foreign "JSONDecodeError" "Expecting value")) \/
   Foreign "JSONDecodeError" "Expecting value" = KeyError "samples" \/
   Foreign "JSONDecodeError" "Expecting value" = TypeError).
Proof.
  split; [reflexivity|].
  apply (load_trainset_raise_inv (one_file "train.json" "not json") malformed
           "train.json" (Foreign "JSONDecodeError" "Expecting value") eq_refl).
Defined.

End LoaderShapeFacts.

(** ** More on [forward] and the metric *)

Module PipelineFacts.

Import Extractor Vocabulary Samples PyFacts.

Section Forward.

Context {LM : Type}.

Implicit Types (self : ArgumentativeExtractor LM) (w : World LM).

(** X12.  [forward] raises only what a predictor raised, or
    [AttributeError] when the classifier's [missing_components] is [None];
    the extractor's failure is met only after a classification with
    ["all_present"].  So a classification without ["all_present"] never
    makes [forward] raise. *)
Theorem forward_raise_inv self (text : string) w (e : exn) :
  fst (forward self text w) = Raise e ->
  (exists st,
     run (completeness_classifier self) text (lm w) = (Raise e, st)) \/
  (exists cr st,
     run (completeness_classifier self) text (lm w) = (Ok cr, st) /\
     missing_components cr = None /\ e = AttributeError "lower") \/
  (exists cr st mc st',
     run (completeness_classifier self) text (lm w) = (Ok cr, st) /\
     missing_components cr = Some mc /\
     contains "all_present" (lower mc) = true /\
     run (structure_extractor self) text st = (Raise e, st')).
Proof.
  rewrite ForwardFacts.forward_unfold.
  destruct (run (completeness_classifier self) text (lm w)) as [[cr|e0] st].
  - destruct (missing_components cr) as [mc|] eqn:Hmc.
    + destruct (contains "all_present" (lower mc)) eqn:Hc; [|discriminate].
      destruct (run (structure_extractor self) text st) as [[p|e1] st'] eqn:He;
        simpl; [discriminate|].
      intros H. injection H as ->. right; right.
      now exists cr, st, mc, st'.
    + simpl. intros H. injection H as <-. right; left. now exists cr, st.
  - simpl. intros H. injection H as ->. left. now exists st.
Qed.

(** X13.  In the incomplete branch the prediction depends on the
    classifier's output only up to its spaces: two outputs that are equal
    once their spaces are taken out give the same prediction. *)
Theorem forward_space_insensitive self self' (text text' : string) w w'
  (cr cr' : Completeness) (st st' : LM) (mc mc' : string) :
  run (completeness_classifier self) text (lm w) = (Ok cr, st) ->
  run (completeness_classifier self') text' (lm w') = (Ok cr', st') ->
  missing_components cr = Some mc ->
  missing_components cr' = Some mc' ->
  contains "all_present" (lower mc) = false ->
  contains "all_present" (lower mc') = false ->
  remove_char " " mc = remove_char " " mc' ->
  fst (forward self text w) = fst (forward self' text' w').
Proof.
  intros Hr Hr' Hm Hm' Hc Hc' Heq.
  rewrite !ForwardFacts.forward_unfold, Hr, Hr', Hm, Hm', Hc, Hc'.
  simpl. unfold diagnostic. now rewrite !replace_char_remove, Heq.
Qed.

End Forward.

Section Metric.

Variable answer_exact_match : option string -> pyval -> result bool.

(** X14.  With a ["missing"] field the metric reads nothing but that field
    and the prediction's [tieback_or_transition]: the other fields of the
    example and of the prediction, and the comparison function, have no
    part in the result. *)
Theorem metric_missing_noninterference
  (answer_exact_match' : option string -> pyval -> result bool)
  (example example' : Example) (prediction prediction' : Prediction) :
  Example_contains "missing" example = true ->
  Example_getitem example' "missing" = Example_getitem example "missing" ->
  tieback_or_transition prediction' = tieback_or_transition prediction ->
  is_text_complete_and_correct answer_exact_match' example' prediction' =
  is_text_complete_and_correct answer_exact_match example prediction.
Proof.
  intros Hin Hm Ht.
  assert (Hin' : Example_contains "missing" example' = true).
  { unfold Example_contains, dict_has, Example_getitem in *.
    destruct (dict_get "missing" (store example)); [|discriminate].
    destruct (dict_get "missing" (store example')); [reflexivity|discriminate]. }
  unfold is_text_complete_and_correct. now rewrite Hin, Hin', Hm, Ht.
Qed.

(** X15.  The verdict [True] is kept when fewer labels are expected and
    when more are predicted: labels predicted in excess cost nothing. *)
Theorem metric_missing_monotone (example example' : Example)
  (prediction prediction' : Prediction) (m m' t t' tail tail' : string) :
  Example_contains "missing" example = true ->
  Example_contains "missing" example' = true ->
  Example_getitem example "missing" = Ok (PStr m) ->
  Example_getitem example' "missing" = Ok (PStr m') ->
  tieback_or_transition prediction = Some t ->
  tieback_or_transition prediction' = Some t' ->
  index_last (split ":" t) = Ok tail ->
  index_last (split ":" t') = Ok tail' ->
  incl (split "," m') (split "," m) ->
  incl (split ", " (strip tail)) (split ", " (strip tail')) ->
  is_text_complete_and_correct answer_exact_match example prediction
  = Ok true ->
  is_text_complete_and_correct answer_exact_match example' prediction'
  = Ok true.
Proof.
  intros Hin Hin' Hm Hm' Ht Ht' Htail Htail' Ie Ip.
  destruct (MetricFacts.metric_missing_unfold answer_exact_match
              example prediction m t Hin Hm Ht) as [x [Hx ->]].
  destruct (MetricFacts.metric_missing_unfold answer_exact_match
              example' prediction' m' t' Hin' Hm' Ht') as [x' [Hx' ->]].
  assert (x = tail) as -> by congruence.
  assert (x' = tail') as -> by congruence.
  intros H. injection H as H. f_equal.
  apply all_parts_in. apply all_parts_in in H.
  intros l Hl. apply Ip, H, Ie, Hl.
Qed.

(** X16.  With a ["missing"] field the metric either returns a verdict or
    raises [AttributeError]: it raises exactly when the expected value or
    the prediction's [tieback_or_transition] is not a string.  Taking the last
    piece after a colon never fails. *)
Theorem metric_missing_raise_iff (example : Example) (prediction : Prediction)
  (missing : pyval) (e : exn) :
  Example_contains "missing" example = true ->
  Example_getitem example "missing" = Ok missing ->
  (is_text_complete_and_correct answer_exact_match example prediction
   = Raise e <->
   e = AttributeError "split" /\
   (is_str missing = false \/ tieback_or_transition prediction = None)).
Proof.
  intros Hin Hm. unfold is_text_complete_and_correct.
  rewrite Hin, Hm. simpl.
  destruct missing as [| | |m| |]; simpl;
    try (split; [intros H; injection H as <-; auto | intros [-> _]; reflexivity]).
  destruct (tieback_or_transition prediction) as [t|]; simpl.
  - destruct (index_last_split ":" t) as [tail ->]. simpl.
    destruct (forallb _ _); split; try discriminate;
      intros [_ [H|H]]; discriminate.
  - split; [intros H; injection H as <-; auto | intros [-> _]; reflexivity].
Qed.

End Metric.

Section ForwardThenMetric.

Context {LM : Type}.
Variable answer_exact_match : option string -> pyval -> result bool.

(** What the metric reads in the message built from the components of
    [r]. *)
Lemma message_parsed (r : string) :
  has_char ":" r = false ->
  starts_with_space r = false ->
  exists tail,
    index_last (split ":" (message_of (split "," r))) = Ok tail /\
    split ", " (strip tail) = with_final_period (split "," r).
Proof.
  intros Hcolon Hspace.
  exists (" " ++ join ", " (split "," r) ++ ".")%string. split.
  - rewrite ForwardFacts.message_of_tail. apply index_last_split_char.
    rewrite !has_char_app. simpl. rewrite orb_false_r.
    apply has_char_join; [reflexivity|].
    apply split_char_pieces. now right.
  - rewrite strip_tail by assumption.
    apply split_join_period, split_char_pieces. now left.
Qed.

(** X17.  The metric applied to the prediction that [forward] builds:
    when the classifier's output holds no colon and, its spaces removed, does
    not start with a white space, the verdict is [True] exactly when every
    expected label is one of the classifier's components before the last, or
    the last one followed by a period. *)
Theorem forward_then_metric (self : ArgumentativeExtractor LM)
  (text : string) (w : World LM) (cr : Completeness) (st : LM)
  (mc m : string) (example : Example) :
  run (completeness_classifier self) text (lm w) = (Ok cr, st) ->
  missing_components cr = Some mc ->
  contains "all_present" (lower mc) = false ->
  has_char ":" mc = false ->
  starts_with_space (replace " " "" mc) = false ->
  Example_contains "missing" example = true ->
  Example_getitem example "missing" = Ok (PStr m) ->
  exists prediction,
    fst (forward self text w) = Ok prediction /\
    (is_text_complete_and_correct answer_exact_match example prediction
     = Ok true <->
     incl (split "," m)
       (with_final_period (split "," (replace " " "" mc)))).
Proof.
  intros Hrun Hmc Hc Hcolon Hspace Hin Hm.
  exists (diagnostic mc). split.
  - rewrite ForwardFacts.forward_unfold, Hrun, Hmc, Hc. reflexivity.
  - assert (Hcolon' : has_char ":" (replace " " "" mc) = false).
    { rewrite replace_char_remove. now apply has_char_remove. }
    destruct (message_parsed (replace " " "" mc) Hcolon' Hspace)
      as [tail [Htail Hparsed]].
    destruct (MetricFacts.metric_missing_unfold answer_exact_match example
                (diagnostic mc) m
                (message_of (split "," (replace " " "" mc))) Hin Hm eq_refl)
      as [tail' [Htail' ->]].
    assert (tail' = tail) as -> by congruence.
    rewrite <- Hparsed, <- all_parts_in.
    split; [intros H; now injection H | intros ->; reflexivity].
Qed.

End ForwardThenMetric.

Lemma forward_raise_inv_witness :
  exists st,
    run (fixed_predict (Raise (Foreign "APIError" "rate limit"))
         : Predict unit Completeness)
      "Dogs are the best pets." (lm w0)
    = (Raise (Foreign "APIError" "rate limit"), st).
Proof.
  destruct (forward_raise_inv
              (mkExtractor
                 (fixed_predict (Raise (Foreign "APIError" "rate limit")))
                 (fixed_predict (Ok four_fields)))
              "Dogs are the best pets." w0
              (Foreign "APIError" "rate limit") eq_refl)
    as [H | [[cr [st [H _]]] | [cr [st [mc [st' [H _]]]]]]].
  - exact H.
  - discriminate H.
  - discriminate H.
Defined.

Lemma forward_space_insensitive_witness :
  fst (forward (fixed_extractor (Some "evidence, analysis") (Ok four_fields))
         "Dogs are the best pets." w0)
  = fst (forward (fixed_extractor (Some " evidence ,analysis")
                    (Ok four_fields)) "Dogs are the best pets." w0).
Proof.
  apply (forward_space_insensitive
           (fixed_extractor (Some "evidence, analysis") (Ok four_fields))
           (fixed_extractor (Some " evidence ,analysis") (Ok four_fields))
           "Dogs are the best pets." "Dogs are the best pets." w0 w0
           (mkCompleteness (Some "evidence, analysis"))
           (mkCompleteness (Some " evidence ,analysis")) tt tt
           "evidence, analysis" " evidence ,analysis");
    reflexivity.
Defined.

Lemma metric_missing_noninterference_witness :
  is_text_complete_and_correct failing_match example_missing
    prediction_missing =
  is_text_complete_and_correct same_string
    (mkExample [("missing", PStr "evidence,analysis")])
    (mkPrediction (Some "T.") None None
       (tieback_or_transition prediction_missing)).
Proof.
  apply (metric_missing_noninterference same_string failing_match
           (mkExample [("missing", PStr "evidence,analysis")])
           example_missing
           (mkPrediction (Some "T.") None None
              (tieback_or_transition prediction_missing))
           prediction_missing);
    reflexivity.
Defined.

Lemma metric_missing_monotone_witness :
  is_text_complete_and_correct same_string
    (mkExample [("missing", PStr "evidence")]) prediction_missing
  = Ok true.
Proof.
  apply (metric_missing_monotone same_string example_missing
           (mkExample [("missing", PStr "evidence")])
           prediction_missing prediction_missing
           "evidence,analysis" "evidence"
           "The following components are missing: analysis, evidence, tieback"
           "The following components are missing: analysis, evidence, tieback"
           " analysis, evidence, tieback" " analysis, evidence, tieback");
    try reflexivity.
  - intros x [<-|[]]. now left.
  - apply incl_refl.
Defined.

Lemma metric_missing_raise_iff_witness :
  is_text_complete_and_correct same_string
    (mkExample [("missing", PList [PStr "evidence"])]) prediction_missing
  = Raise (AttributeError "split").
Proof.
  apply (proj2 (metric_missing_raise_iff same_string
                  (mkExample [("missing", PList [PStr "evidence"])])
                  prediction_missing (PList [PStr "evidence"])
                  (AttributeError "split") eq_refl eq_refl)).
  split; [reflexivity | now left].
Defined.

Lemma forward_then_metric_witness :
  exists prediction,
    fst (forward (fixed_extractor (Some "evidence, analysis")
                    (Ok four_fields)) "Dogs are the best pets." w0)
    = Ok prediction /\
    is_text_complete_and_correct same_string
      (mkExample [("missing", PStr "evidence")]) prediction = Ok true.
Proof.
  destruct (forward_then_metric same_string
              (fixed_extractor (Some "evidence, analysis") (Ok four_fields))
              "Dogs are the best pets." w0
              (mkCompleteness (Some "evidence, analysis")) tt
              "evidence, analysis" "evidence"
              (mkExample [("missing", PStr "evidence")])
              eq_refl eq_refl eq_refl eq_refl eq_refl eq_refl eq_refl)
    as [prediction [H1 H2]].
  exists prediction. split; [exact H1|].
  apply H2. intros x [<-|[]]. now left.
Defined.

End PipelineFacts.
